(** * VoxelEngine-Cpp frontend: UiDocument and HudRenderer

    A shallow embedding of [UiDocument.cpp] (the id-to-node index of a UI
    layout) and of [frontend/hud.cpp] (the HUD state machine, the content
    access panel and the crosshair), with the properties of both. *)

From Stdlib Require Import ZArith Lia.
From stdpp Require Import gmap strings list fin_maps pretty.

Set Warnings "-register-all".
Local Open Scope Z_scope.

(** ** The GUI node tree *)

Module Gui.

(** A [gui::UINode] object, as far as the code under study looks at it: the
    address the [shared_ptr] holds ([ptr], so that two distinct nodes with the
    same id stay distinct), the id string, and the dynamic type. A node whose
    dynamic type derives from [gui::Container] carries its child list; the flag
    tells whether that type is [InventoryView] (itself a [Container]). *)
Inductive UINode : Type :=
| Leaf (ptr : nat) (id : string)
| Container (ptr : nat) (id : string) (isInventoryView : bool)
            (nodes : list UINode).

(** [UINode::getId] *)
Definition getId (node : UINode) : string :=
  match node with
  | Leaf _ id => id
  | Container _ id _ _ => id
  end.

(** [dynamic_cast<gui::Container*>(node.get())] followed by [getNodes()]:
    [None] is the null pointer the cast yields on a node that is no
    container. *)
Definition as_container (node : UINode) : option (list UINode) :=
  match node with
  | Leaf _ _ => None
  | Container _ _ _ nodes => Some nodes
  end.

(** [std::dynamic_pointer_cast<InventoryView>(node)] *)
Definition as_inventory_view (node : UINode) : option UINode :=
  match node with
  | Container _ _ true _ => Some node
  | _ => None
  end.

(** [std::string::empty] *)
Definition empty (s : string) : bool :=
  match s with
  | EmptyString => true
  | String _ _ => false
  end.

End Gui.

(** ** UiDocument *)

Module UiDoc.
Import Gui.

(** [uinodes_map]: [std::unordered_map<std::string, std::shared_ptr<gui::UINode>>] *)
Abbreviation uinodes_map := (gmap string UINode).

(** [uidocscript]: the handle of the layout's script. Its declaration is in
    [UiDocument.h]; the code here only stores and returns it. *)
Record uidocscript : Type := {
  environment : Z;
  onopen : bool;
  onclose : bool
}.

Record UiDocument : Type := {
  doc_id : string;
  script : uidocscript;
  root : UINode;
  env : Z;
  map : uinodes_map
}.

(** [UiDocument::collect]: [map[id] = node] when the id is not empty, then the
    children of a container, in order. *)
Fixpoint collect (map : uinodes_map) (node : UINode) {struct node} : uinodes_map :=
  let id := getId node in
  let map := if negb (empty id) then <[id := node]> map else map in
  match node with
  | Leaf _ _ => map
  | Container _ _ _ nodes =>
      (fix subnodes (map : uinodes_map) (l : list UINode) : uinodes_map :=
         match l with
         | [] => map
         | subnode :: l' => subnodes (collect map subnode) l'
         end) map nodes
  end.

(** The [for] loop of [collect] over a child list. *)
Definition collect_nodes (map : uinodes_map) (nodes : list UINode) : uinodes_map :=
  fold_left collect nodes map.

(** The constructor: the member [map] starts empty and is filled by
    [collect(map, root)]. The root is a node, not a null pointer, which
    [collect] would dereference. *)
Definition UiDocument_new (id : string) (script : uidocscript) (root : UINode)
    (env : Z) : UiDocument :=
  {| doc_id := id; script := script; root := root; env := env;
     map := collect ∅ root |}.

(** The getters. [UiDocument::getId] is [doc_id], the name [getId] being the
    node's. *)
Definition getMap (doc : UiDocument) : uinodes_map := map doc.
Definition getRoot (doc : UiDocument) : UINode := root doc.
Definition getScript (doc : UiDocument) : uidocscript := script doc.
Definition getEnvironment (doc : UiDocument) : Z := env doc.

(** The nodes [collect] visits, in the order it visits them. *)
Fixpoint preorder (node : UINode) : list UINode :=
  node ::
  match node with
  | Leaf _ _ => []
  | Container _ _ _ nodes => flat_map preorder nodes
  end.

(** Reachability from a node through the child lists of containers. *)
Inductive reachable : UINode -> UINode -> Prop :=
| reach_self node : reachable node node
| reach_child ptr id iv nodes sub node :
    In sub nodes -> reachable sub node ->
    reachable (Container ptr id iv nodes) node.

(** What [collect] does at one node, before it descends. *)
Definition record (map : uinodes_map) (node : UINode) : uinodes_map :=
  if negb (empty (getId node)) then <[getId node := node]> map else map.

End UiDoc.

(** ** HudRenderer *)

Module Hud.
Import Gui UiDoc.

(** *** Machine integers *)

(** [int] and [uint] are 32 bits wide, [size_t] 64; a result that leaves the
    range wraps around. *)
Definition wrap_int (z : Z) : Z := (z + 2 ^ 31) mod 2 ^ 32 - 2 ^ 31.
Definition wrap_uint (z : Z) : Z := z mod 2 ^ 32.
Definition wrap_size_t (z : Z) : Z := z mod 2 ^ 64.

Definition int_sub (a b : Z) : Z := wrap_int (a - b).
Definition int_add (a b : Z) : Z := wrap_int (a + b).
(** [%] on [int] truncates towards zero. *)
Definition int_rem (a b : Z) : Z := Z.rem a b.
Definition uint_sub (a b : Z) : Z := wrap_uint (a - b).
Definition uint_add (a b : Z) : Z := wrap_uint (a + b).
Definition uint_div (a b : Z) : Z := a / b.

(** An [unsigned] value passed where a [float] is expected: the nearest
    value with 24 significant bits, a tie going to the even one. The result
    is a whole number and is kept as such. *)
Definition uint_to_float (z : Z) : Z :=
  if z <? 2 ^ 24 then z
  else
    let e := Z.log2 z - 23 in
    let q := z / 2 ^ e in
    let r := z mod 2 ^ e in
    let q' :=
      if 2 * r <? 2 ^ e then q
      else if 2 * r =? 2 ^ e then (if Z.even q then q else q + 1)
      else q + 1 in
    q' * 2 ^ e.

(** *** Input *)

(** Modelled from the spec: the key codes of [window/input.h], which is not
    under src/; they are the GLFW codes, where the digit keys are contiguous. *)
Module keycode.
Definition ESCAPE : Z := 256.
Definition NUM_0 : Z := 48.
Definition NUM_1 : Z := 49.
Definition NUM_9 : Z := 57.
End keycode.

(** What [update] reads of the static members of [Events] and never writes. *)
Record Events : Type := {
  jpressed : Z -> bool;            (* Events::jpressed(keycode) *)
  jactive_hud_inventory : bool;    (* Events::jactive(BIND_HUD_INVENTORY) *)
  scroll : Z                       (* Events::scroll, an int *)
}.

(** *** Items and inventories *)

Record ItemStack : Type := { item : Z; count : Z }.

(** [ItemStack()] : the empty stack. *)
Definition ItemStack_empty : ItemStack := {| item := 0; count := 0 |}.

(** Modelled from the spec: [ItemStack::clear] and [ItemStack::set] of
    [items/ItemStack.cpp], which is not under src/. [clear] leaves the
    empty stack, [set] stores the item and the count of its argument. *)
Definition ItemStack_clear (_ : ItemStack) : ItemStack := ItemStack_empty.
Definition ItemStack_set (_ : ItemStack) (src : ItemStack) : ItemStack := src.

Record Inventory : Type := { inv_id : Z; slots : list ItemStack }.

(** [Inventory(uint id, size_t size)] : [size] empty slots. *)
Definition Inventory_new (id : Z) (size : Z) : Inventory :=
  {| inv_id := id; slots := replicate (Z.to_nat size) ItemStack_empty |}.

(** [inventory.getSlot(index).set(stack)]. [getSlot] indexes the slot vector
    with a [size_t]; outside the vector the behaviour is undefined, [None]
    here. *)
Definition setSlot (inv : Inventory) (index : Z) (stack : ItemStack)
    : option Inventory :=
  let i := Z.to_nat (wrap_size_t index) in
  match slots inv !! i with
  | Some old =>
      Some {| inv_id := inv_id inv;
              slots := <[i := ItemStack_set old stack]> (slots inv) |}
  | None => None
  end.

Definition getSlot (inv : Inventory) (index : Z) : option ItemStack :=
  slots inv !! Z.to_nat (wrap_size_t index).

Record Player : Type := {
  debug : bool;
  chosenSlot : Z;
  inventory : Inventory
}.

(** Modelled from the spec: [Player::setChosenSlot] of [objects/Player.cpp],
    which is not under src/, stores the index. *)
Definition setChosenSlot (index : Z) (p : Player) : Player :=
  {| debug := debug p; chosenSlot := index; inventory := inventory p |}.

Definition getChosenSlot (p : Player) : Z := chosenSlot p.

(** *** Inventory views *)

(** The two closures [createContentAccess] gives to the slot layout. *)
Inductive SlotAction : Type :=
| MoveCopyToPlayerInventory   (* inventory->move(ItemStack(item), indices) *)
| SetPlayerChosenSlot.        (* inventory->getSlot(player->getChosenSlot()).set(item) *)

(** [SlotLayout(index, position, background, itemSource, shareFunc, rightClick)] *)
Record SlotLayout : Type := {
  index : Z;
  position : Z * Z;
  background : bool;
  itemSource : bool;
  shareFunc : option SlotAction;
  rightClick : option SlotAction
}.

(** The arguments of [InventoryBuilder::addGrid(cols, count, coord, padding,
    addEmptySlots, slotLayout)]. *)
Record SlotsGrid : Type := {
  cols : Z;
  slots_count : Z;
  coord : Z * Z;
  padding : Z;
  addEmptySlots : bool;
  layout : SlotLayout
}.

(** The inventory a view is bound to: the player's, which the view shares
    with the player, or one that only the view holds. *)
Inductive BoundInventory : Type :=
| PlayerInventory
| OwnInventory (inv : Inventory).

(** Where a view comes from: [InventoryBuilder::build] after some [addGrid]
    calls, or the root node of a layout document. *)
Inductive ViewOrigin : Type :=
| FromBuilder (grids : list SlotsGrid)
| FromLayout (node : UINode).

Record InventoryView : Type := {
  origin : ViewOrigin;
  bound : option BoundInventory;    (* set by bind, read by getInventory *)
  interactive : bool
}.

Definition bind (inv : BoundInventory) (v : InventoryView) : InventoryView :=
  {| origin := origin v; bound := Some inv; interactive := interactive v |}.

Definition setInteractive (b : bool) (v : InventoryView) : InventoryView :=
  {| origin := origin v; bound := bound v; interactive := b |}.

Definition build (grids : list SlotsGrid) : InventoryView :=
  {| origin := FromBuilder grids; bound := None; interactive := true |}.

(** *** The objects the HUD shares with the rest of the engine *)

(** Modelled from the spec: [gui::PagesControl] of [gui/panels.cpp], which is
    not under src/. Only the name of the current page is kept; [None] is the
    state where [current().panel] is null. [reset] leaves no current page and
    [setPage] makes the named page, taken to be registered, the current one. *)
Record Menu : Type := {
  menu_visible : bool;
  page : option string
}.

Definition Menu_setVisible (b : bool) (m : Menu) : Menu :=
  {| menu_visible := b; page := page m |}.
Definition Menu_reset (m : Menu) : Menu :=
  {| menu_visible := menu_visible m; page := None |}.
Definition Menu_setPage (name : string) (m : Menu) : Menu :=
  {| menu_visible := menu_visible m; page := Some name |}.
Definition Menu_current_panel_null (m : Menu) : bool :=
  match page m with None => true | Some _ => false end.

(** The nodes the HUD hands to the [GUI] container. *)
Inductive GuiElement : Type :=
| DarkOverlay
| HotbarView
| DebugPanel
| ContentAccessPanel
| GrabbedItemView
| InventoryViewNode (v : InventoryView).

(** Calls into the [GUI] container and the scripting runtime, which the HUD
    only commands; they are kept as a trace, oldest first. *)
Inductive Call : Type :=
| gui_add (e : GuiElement)
| gui_addBack (e : GuiElement)
| gui_remove (e : GuiElement)
| on_ui_open (doc : UiDocument) (inv : BoundInventory)
| on_ui_close (doc : option UiDocument) (inv : option BoundInventory).

Record World : Type := {
  player : Player;
  itemDefs : list string;                (* level->content->getIndices() *)
  menu : Menu;                           (* gui->getMenu() *)
  focusCaught : bool;                    (* gui->isFocusCaught() *)
  cursor_locked : bool;                  (* Events::_cursor_locked *)
  layouts : gmap string UiDocument;      (* assets->getLayout(name) *)
  shaders : gset string;                 (* assets->getShader(name) *)
  grabbedItem : ItemStack;               (* interaction->getGrabbedItem() *)
  calls : list Call
}.

Definition with_player (p : Player) (w : World) : World :=
  {| player := p; itemDefs := itemDefs w; menu := menu w;
     focusCaught := focusCaught w; cursor_locked := cursor_locked w;
     layouts := layouts w; shaders := shaders w;
     grabbedItem := grabbedItem w; calls := calls w |}.

Definition with_menu (m : Menu) (w : World) : World :=
  {| player := player w; itemDefs := itemDefs w; menu := m;
     focusCaught := focusCaught w; cursor_locked := cursor_locked w;
     layouts := layouts w; shaders := shaders w;
     grabbedItem := grabbedItem w; calls := calls w |}.

Definition with_cursor_locked (b : bool) (w : World) : World :=
  {| player := player w; itemDefs := itemDefs w; menu := menu w;
     focusCaught := focusCaught w; cursor_locked := b;
     layouts := layouts w; shaders := shaders w;
     grabbedItem := grabbedItem w; calls := calls w |}.

Definition with_grabbedItem (g : ItemStack) (w : World) : World :=
  {| player := player w; itemDefs := itemDefs w; menu := menu w;
     focusCaught := focusCaught w; cursor_locked := cursor_locked w;
     layouts := layouts w; shaders := shaders w;
     grabbedItem := g; calls := calls w |}.

Definition call (c : Call) (w : World) : World :=
  {| player := player w; itemDefs := itemDefs w; menu := menu w;
     focusCaught := focusCaught w; cursor_locked := cursor_locked w;
     layouts := layouts w; shaders := shaders w;
     grabbedItem := grabbedItem w; calls := calls w ++ [c] |}.

(** Modelled from the spec: [Events::toggleCursor] of [window/Events.cpp],
    which is not under src/, flips the lock flag. *)
Definition toggleCursor (w : World) : World :=
  with_cursor_locked (negb (cursor_locked w)) w.

(** [assets->getLayout(name)] : [None] is the null pointer. *)
Definition getLayout (name : string) (w : World) : option UiDocument :=
  layouts w !! name.

(** [assets->getShader(name)] : the shader of that name when it is loaded,
    [None] being the null pointer. *)
Definition getShader (name : string) (w : World) : option string :=
  if bool_decide (name ∈ shaders w) then Some name else None.

(** [indices->countItemDefs()], a [size_t]. *)
Definition countItemDefs (w : World) : Z := Z.of_nat (length (itemDefs w)).

(** *** The renderer's own members *)

Record HudRenderer : Type := {
  pause : bool;
  inventoryOpen : bool;
  inventoryView : option InventoryView;        (* None: null *)
  inventoryDocument : option UiDocument;       (* None: null *)
  contentAccess : InventoryView;
  hotbarView : InventoryView;
  debugPanel_visible : bool;
  hotbarView_visible : bool;
  contentAccessPanel_visible : bool;
  darkOverlay_visible : bool
}.

Definition with_pause (b : bool) (h : HudRenderer) : HudRenderer :=
  {| pause := b; inventoryOpen := inventoryOpen h;
     inventoryView := inventoryView h; inventoryDocument := inventoryDocument h;
     contentAccess := contentAccess h; hotbarView := hotbarView h;
     debugPanel_visible := debugPanel_visible h;
     hotbarView_visible := hotbarView_visible h;
     contentAccessPanel_visible := contentAccessPanel_visible h;
     darkOverlay_visible := darkOverlay_visible h |}.

Definition with_inventory (open : bool) (v : option InventoryView)
    (d : option UiDocument) (h : HudRenderer) : HudRenderer :=
  {| pause := pause h; inventoryOpen := open;
     inventoryView := v; inventoryDocument := d;
     contentAccess := contentAccess h; hotbarView := hotbarView h;
     debugPanel_visible := debugPanel_visible h;
     hotbarView_visible := hotbarView_visible h;
     contentAccessPanel_visible := contentAccessPanel_visible h;
     darkOverlay_visible := darkOverlay_visible h |}.

Definition with_debugPanel_visible (b : bool) (h : HudRenderer) : HudRenderer :=
  {| pause := pause h; inventoryOpen := inventoryOpen h;
     inventoryView := inventoryView h; inventoryDocument := inventoryDocument h;
     contentAccess := contentAccess h; hotbarView := hotbarView h;
     debugPanel_visible := b;
     hotbarView_visible := hotbarView_visible h;
     contentAccessPanel_visible := contentAccessPanel_visible h;
     darkOverlay_visible := darkOverlay_visible h |}.

(** Lines 316-319: the content access panel is shown with the inventory, the
    hotbar with the HUD. Sizes and coordinates of widgets are [float] vectors
    and are left out of the state. *)
Definition with_panels (access : bool) (hotbar : bool)
    (h : HudRenderer) : HudRenderer :=
  {| pause := pause h; inventoryOpen := inventoryOpen h;
     inventoryView := inventoryView h; inventoryDocument := inventoryDocument h;
     contentAccess := contentAccess h; hotbarView := hotbarView h;
     debugPanel_visible := debugPanel_visible h;
     hotbarView_visible := hotbar;
     contentAccessPanel_visible := access;
     darkOverlay_visible := darkOverlay_visible h |}.

Definition with_darkOverlay_visible (b : bool) (h : HudRenderer) : HudRenderer :=
  {| pause := pause h; inventoryOpen := inventoryOpen h;
     inventoryView := inventoryView h; inventoryDocument := inventoryDocument h;
     contentAccess := contentAccess h; hotbarView := hotbarView h;
     debugPanel_visible := debugPanel_visible h;
     hotbarView_visible := hotbarView_visible h;
     contentAccessPanel_visible := contentAccessPanel_visible h;
     darkOverlay_visible := b |}.

(** The renderer together with what it shares. *)
Definition State : Type := HudRenderer * World.


(** *** Building the views *)

(** The loop [for (int id = 1; id < itemsCount; id++)] of
    [createContentAccess], over the ids it runs through. *)
Fixpoint fill_access (ids : list Z) (accessInventory : Inventory)
    : option Inventory :=
  match ids with
  | [] => Some accessInventory
  | id :: ids' =>
      inv ← setSlot accessInventory (int_sub id 1) {| item := id; count := 1 |};
      fill_access ids' inv
  end.

(** [HudRenderer::createContentAccess] *)
Definition createContentAccess (w : World) : option InventoryView :=
  let itemsCount := wrap_int (countItemDefs w) in
  let accessInventory := Inventory_new 0 (wrap_size_t itemsCount) in
  accessInventory ← fill_access (seqZ 1 (itemsCount - 1)) accessInventory;
  let slotLayout :=
    {| index := -1; position := (0, 0); background := false;
       itemSource := true;
       shareFunc := Some MoveCopyToPlayerInventory;
       rightClick := Some SetPlayerChosenSlot |} in
  let view :=
    build [ {| cols := 8; slots_count := int_sub itemsCount 1;
               coord := (0, 0); padding := 8; addEmptySlots := true;
               layout := slotLayout |} ] in
  Some (bind (OwnInventory accessInventory) view).

(** [HudRenderer::createHotbar]. The origin of the view, a [float] vector, is
    left out. *)
Definition createHotbar : InventoryView :=
  let slotLayout :=
    {| index := -1; position := (0, 0); background := false;
       itemSource := false; shareFunc := None; rightClick := None |} in
  let view :=
    build [ {| cols := 10; slots_count := 10; coord := (0, 0); padding := 4;
               addEmptySlots := true; layout := slotLayout |} ] in
  setInteractive false (bind PlayerInventory view).

(** The constructor. It makes a new [InventoryInteraction], whose grabbed
    stack is empty. Modelled from the spec: the member initialisers of
    [hud.h], which is not under src/: [pause] and [inventoryOpen] start
    false and the two inventory pointers null; a widget is visible when it is
    made. *)
Definition HudRenderer_new (w : World) : option State :=
  let w := with_grabbedItem ItemStack_empty w in
  contentAccess ← createContentAccess w;
  let hotbarView := createHotbar in
  let w := with_menu (Menu_reset (menu w)) w in
  let w := call (gui_addBack DarkOverlay) w in
  let w := call (gui_addBack HotbarView) w in
  let w := call (gui_add DebugPanel) w in
  let w := call (gui_add ContentAccessPanel) w in
  let w := call (gui_add GrabbedItemView) w in
  Some ({| pause := false; inventoryOpen := false;
           inventoryView := None; inventoryDocument := None;
           contentAccess := contentAccess; hotbarView := hotbarView;
           debugPanel_visible := true; hotbarView_visible := true;
           contentAccessPanel_visible := true;
           darkOverlay_visible := true |}, w).

(** *** Opening and closing the inventory *)

(** [HudRenderer::openInventory]. A null layout or a root that is no
    [InventoryView] is dereferenced: [None]. *)
Definition openInventory (s : State) : option State :=
  let '(h, w) := s in
  let w := call (gui_remove GrabbedItemView) w in
  doc ← getLayout "core:inventory" w;
  node ← as_inventory_view (getRoot doc);
  let view :=
    bind PlayerInventory
      {| origin := FromLayout node; bound := None; interactive := true |} in
  let w := call (on_ui_open doc PlayerInventory) w in
  let w := call (gui_add (InventoryViewNode view)) w in
  let w := call (gui_add GrabbedItemView) w in
  Some (with_inventory true (Some view) (Some doc) h, w).

(** [HudRenderer::closeInventory]. [inventoryView->getInventory()] on a null
    [inventoryView] is a null dereference: [None]. *)
Definition closeInventory (s : State) : option State :=
  let '(h, w) := s in
  view ← inventoryView h;
  let w := call (on_ui_close (inventoryDocument h) (bound view)) w in
  let w := with_grabbedItem (ItemStack_clear (grabbedItem w)) w in
  let w := call (gui_remove (InventoryViewNode view)) w in
  Some (with_inventory false None None h, w).

(** *** update *)

(** Lines 283-284 *)
Definition update_visibility (visible : bool) (s : State) : State :=
  let '(h, w) := s in
  (with_debugPanel_visible (debug (player w) && visible) h,
   with_menu (Menu_setVisible (pause h) (menu w)) w).

(** Lines 286-288 *)
Definition update_hidden (visible : bool) (s : State) : option State :=
  if negb visible && inventoryOpen (fst s) then closeInventory s else Some s.

(** Lines 289-291 *)
Definition update_menu_closed (s : State) : State :=
  let '(h, w) := s in
  if pause h && Menu_current_panel_null (menu w)
  then (with_pause false h, w) else s.

(** Lines 292-302: the ESCAPE key. *)
Definition update_escape (ev : Events) (s : State) : option State :=
  let '(h, w) := s in
  if jpressed ev keycode.ESCAPE && negb (focusCaught w) then
    if pause h then
      Some (with_pause false h, with_menu (Menu_reset (menu w)) w)
    else if inventoryOpen h then
      closeInventory s
    else
      Some (with_pause true h, with_menu (Menu_setPage "pause" (menu w)) w)
  else Some s.

(** Lines 303-311: the inventory key. *)
Definition update_inventory_key (ev : Events) (visible : bool) (s : State)
    : option State :=
  if visible && jactive_hud_inventory ev then
    if negb (pause (fst s)) then
      if inventoryOpen (fst s) then closeInventory s else openInventory s
    else Some s
  else Some s.

(** Lines 312-314 *)
Definition update_cursor (s : State) : State :=
  let '(h, w) := s in
  if Bool.eqb (pause h || inventoryOpen h) (cursor_locked w)
  then (h, toggleCursor w) else s.

(** Lines 316-319 *)
Definition update_panels (visible : bool) (s : State) : State :=
  let '(h, w) := s in (with_panels (inventoryOpen h) visible h, w).

(** Lines 321-328: the digit keys, [NUM_1] to [NUM_9] in a loop, then
    [NUM_0]. *)
Definition update_number_keys (ev : Events) (p : Player) : Player :=
  let p :=
    fold_left
      (fun p i =>
         if jpressed ev i then setChosenSlot (int_sub i keycode.NUM_1) p else p)
      (seqZ keycode.NUM_1 (keycode.NUM_9 - keycode.NUM_1 + 1)) p in
  if jpressed ev keycode.NUM_0 then setChosenSlot 9 p else p.

(** Lines 329-336: the mouse wheel. *)
Definition update_scroll (ev : Events) (h : HudRenderer) (p : Player) : Player :=
  if negb (pause h) && negb (inventoryOpen h) && negb (scroll ev =? 0) then
    let slot := getChosenSlot p in
    let slot := int_rem (int_sub slot (scroll ev)) 10 in
    let slot := if slot <? 0 then int_add slot 10 else slot in
    setChosenSlot slot p
  else p.

(** Lines 321-338 *)
Definition update_slot (ev : Events) (s : State) : State :=
  let '(h, w) := s in
  let p := update_number_keys ev (player w) in
  let p := update_scroll ev h p in
  (with_darkOverlay_visible (pause h) h, with_player p w).

(** [HudRenderer::update] *)
Definition update (ev : Events) (visible : bool) (s : State) : option State :=
  let s := update_visibility visible s in
  s ← update_hidden visible s;
  let s := update_menu_closed s in
  s ← update_escape ev s;
  s ← update_inventory_key ev visible s;
  let s := update_cursor s in
  let s := update_panels visible s in
  Some (update_slot ev s).

(** One frame: what the rest of the engine did to the shared objects since
    the previous call, then the arguments of this call. *)
Record Frame : Type := {
  engine : World -> World;
  events : Events;
  visible : bool
}.

(** A sequence of [update] calls. *)
Fixpoint run (frames : list Frame) (s : State) : option State :=
  match frames with
  | [] => Some s
  | f :: frames' =>
      s' ← update (events f) (visible f) (s.1, engine f s.2);
      run frames' s'
  end.

(** *** draw *)

Record Viewport : Type := { getWidth : Z; getHeight : Z }.

(** What [draw] asks of the batch, the shader, the camera and the widgets, in
    order. Colour components are written in tenths; coordinates that are
    computed in [float] from widget sizes are left out. *)
Inductive DrawCall : Type :=
| uicamera_setFov (height : Z)
| batch_begin
| shader_use (name : string)
| shader_uniform_projview
| hotbarView_setCoord (x y : Z)
| hotbarView_setSelected (slot : Z)
| batch_lineWidth (width : Z)
| batch_line (x1 y1 x2 y2 : Z) (r g b a : Z)
| inventoryView_setCoord
| contentAccessPanel_setCoord
| grabbedItemView_setCoord
| batch_render.

(** The four lines of the crosshair, lines 392-396. The coordinates are
    computed in [unsigned] and passed to [Batch2D::line] as [float]. *)
Definition crosshair (width height : Z) : list DrawCall :=
  let cx := uint_div width 2 in
  let cy := uint_div height 2 in
  let f := uint_to_float in
  [ batch_lineWidth 2;
    batch_line (f cx) (f (uint_sub cy 6)) (f cx) (f (uint_add cy 6)) 2 2 2 10;
    batch_line (f (uint_add cx 6)) (f cy) (f (uint_sub cx 6)) (f cy) 2 2 2 10;
    batch_line (f (uint_sub cx 5)) (f (uint_sub cy 5))
               (f (uint_add cx 5)) (f (uint_add cy 5)) 9 9 9 10;
    batch_line (f (uint_add cx 5)) (f (uint_sub cy 5))
               (f (uint_sub cx 5)) (f (uint_add cy 5)) 9 9 9 10 ].

(** [HudRenderer::draw]. The shader ["ui"] is used without a check, and so
    is [inventoryView] when the inventory is open: a null pointer there is
    dereferenced, [None]. *)
Definition draw (viewport : Viewport) (s : State) : option (list DrawCall) :=
  let '(h, w) := s in
  let width := getWidth viewport in
  let height := getHeight viewport in
  uishader ← getShader "ui" w;
  let head :=
    [ uicamera_setFov (uint_to_float height); batch_begin; shader_use uishader;
      shader_uniform_projview;
      hotbarView_setCoord (uint_to_float (uint_div width 2))
                          (uint_to_float (uint_sub height 65));
      hotbarView_setSelected (getChosenSlot (player w));
      batch_begin ] in
  let cross :=
    if negb (pause h) && cursor_locked w && negb (debug (player w))
    then crosshair width height else [] in
  placed ←
    (if inventoryOpen h then
       _ ← inventoryView h;
       Some [inventoryView_setCoord; contentAccessPanel_setCoord]
     else Some []);
  Some (head ++ cross ++ placed ++ [grabbedItemView_setCoord; batch_render]).

(** Whether a call draws a line. *)
Definition is_line (c : DrawCall) : bool :=
  match c with batch_line _ _ _ _ _ _ _ _ => true | _ => false end.

(** [HudRenderer::isInventoryOpen] and [HudRenderer::isPause] *)
Definition isInventoryOpen (h : HudRenderer) : bool := inventoryOpen h.
Definition isPause (h : HudRenderer) : bool := pause h.

End Hud.

(** ** Predicates and sample data of the properties *)

Module HudSpec.
Import Gui UiDoc Hud.

(** A tree with the id ["a"] on three nodes and ["b"] on two. *)
Definition sample_tree : UINode :=
  Container 0 "root" false
    [ Leaf 1 "a";
      Container 2 "a" true [ Leaf 3 "b"; Leaf 4 "" ];
      Leaf 5 "a";
      Leaf 6 "b" ].

(** The renderer never holds an open inventory without its view. *)
Definition view_present (h : HudRenderer) : Prop :=
  inventoryOpen h = true -> is_Some (inventoryView h).

(** The layout of the inventory is loaded and its root is an
    [InventoryView]. *)
Definition layout_present (w : World) : Prop :=
  exists doc node, getLayout "core:inventory" w = Some doc /\
                   as_inventory_view (getRoot doc) = Some node.

(** What a block may do to the members and shared objects the later blocks
    and the properties below look at: it keeps the player, the loaded
    layouts and the visibility of the debug panel, and the two flags go from
    [(p, i)] to [(p', i')]. *)
Record block (s s' : State) (p i p' i' : bool) : Prop := {
  block_pause : pause s.1 = p;
  block_open : inventoryOpen s.1 = i;
  block_pause' : pause s'.1 = p';
  block_open' : inventoryOpen s'.1 = i';
  block_player : player s'.2 = player s.2;
  block_layouts : layouts s'.2 = layouts s.2;
  block_debugPanel : debugPanel_visible s'.1 = debugPanel_visible s.1;
  block_view : view_present s.1 -> view_present s'.1
}.

(** Sample data: a layout whose root is an inventory view, a world with three
    item definitions, and a renderer as the constructor leaves it. *)
Definition inventory_layout : UiDocument :=
  UiDocument_new "core"
    {| environment := 1; onopen := true; onclose := true |}
    (Container 10 "inventory" true [Leaf 11 "slot-0"; Leaf 12 "slot-1"]) 1.

Definition sample_world : World :=
  {| player := {| debug := false; chosenSlot := 3;
                  inventory := Inventory_new 1 40 |};
     itemDefs := ["core:empty"; "base:stone.item"; "base:grass.item"];
     menu := {| menu_visible := false; page := None |};
     focusCaught := false;
     cursor_locked := true;
     layouts := {[ "core:inventory" := inventory_layout ]};
     shaders := {[ "ui" ]};
     grabbedItem := {| item := 2; count := 5 |};
     calls := [] |}.

Definition sample_hud : HudRenderer :=
  {| pause := false; inventoryOpen := false;
     inventoryView := None; inventoryDocument := None;
     contentAccess := default createHotbar (createContentAccess sample_world);
     hotbarView := createHotbar;
     debugPanel_visible := true; hotbarView_visible := true;
     contentAccessPanel_visible := true; darkOverlay_visible := true |}.

(** The renderer with the inventory open. *)
Definition sample_open : State :=
  (with_inventory true
     (Some {| origin := FromLayout (getRoot inventory_layout);
              bound := Some PlayerInventory; interactive := true |})
     (Some inventory_layout) sample_hud,
   sample_world).

(** Events: nothing pressed; one key pressed; the inventory key; the wheel. *)
Definition no_events : Events :=
  {| jpressed := fun _ => false; jactive_hud_inventory := false; scroll := 0 |}.
Definition key_event (key : Z) : Events :=
  {| jpressed := fun k => k =? key; jactive_hud_inventory := false;
     scroll := 0 |}.
Definition inventory_event : Events :=
  {| jpressed := fun _ => false; jactive_hud_inventory := true; scroll := 0 |}.
Definition scroll_event (amount : Z) : Events :=
  {| jpressed := fun _ => false; jactive_hud_inventory := false;
     scroll := amount |}.

(** The three transitions of the ESCAPE key, as changes from the state before
    the key is looked at to the state after. *)
Definition resumes (s s' : State) : Prop :=
  pause s.1 = true /\ pause s'.1 = false /\
  menu s'.2 = Menu_reset (menu s.2) /\
  inventoryOpen s'.1 = inventoryOpen s.1.

Definition closes (s s' : State) : Prop :=
  inventoryOpen s.1 = true /\ inventoryOpen s'.1 = false /\
  closeInventory s = Some s' /\
  pause s'.1 = pause s.1 /\ menu s'.2 = menu s.2.

Definition pauses (s s' : State) : Prop :=
  pause s.1 = false /\ pause s'.1 = true /\
  menu s'.2 = Menu_setPage "pause" (menu s.2) /\
  inventoryOpen s'.1 = inventoryOpen s.1.

(** One turn of the loop over the digit keys. *)
Definition key_step (ev : Events) (p : Player) (i : Z) : Player :=
  if jpressed ev i then setChosenSlot (int_sub i keycode.NUM_1) p else p.

(** A sequence of frames: the inventory key, ESCAPE twice, a frame in which
    the engine has reset the menu, the inventory key with the HUD hidden, and
    ESCAPE with the inventory key. *)
Definition sample_frames : list Frame :=
  [ {| engine := fun w => w; events := inventory_event; visible := true |};
    {| engine := fun w => w; events := key_event keycode.ESCAPE;
       visible := true |};
    {| engine := fun w => w; events := key_event keycode.ESCAPE;
       visible := true |};
    {| engine := fun w => with_menu (Menu_reset (menu w)) w;
       events := no_events; visible := true |};
    {| engine := fun w => w; events := inventory_event; visible := false |};
    {| engine := fun w => w;
       events := {| jpressed := fun k => k =? keycode.ESCAPE;
                    jactive_hud_inventory := true; scroll := -3 |};
       visible := true |} ].

(** The condition under which [draw] composes the crosshair. *)
Definition crosshair_shown (s : State) : bool :=
  negb (pause s.1) && cursor_locked s.2 && negb (debug (player s.2)).

Definition sample_viewport : Viewport := {| getWidth := 1280; getHeight := 720 |}.

End HudSpec.

(** ** More of the renderer: the frame-rate statistics and the destructor *)

Module HudLife.
Import Gui UiDoc Hud.

(** The members [fps], [fpsMin], [fpsMax] and [fpsString] of the renderer. *)
Record FpsStats : Type := {
  fps : Z;
  fpsMin : Z;
  fpsMax : Z;
  fpsString : string
}.

(** [HudRenderer::drawDebug] *)
Definition drawDebug (fps' : Z) (st : FpsStats) : FpsStats :=
  {| fps := fps';
     fpsMin := Z.min fps' (fpsMin st);
     fpsMax := Z.max fps' (fpsMax st);
     fpsString := fpsString st |}.

(** The listener that [createDebugPanel] gives to [listenInterval(0.5f, ...)]:
    it writes the label, [std::to_wstring] printing an [int] in decimal, and
    restarts both bounds from the last sample. *)
Definition fps_interval (st : FpsStats) : FpsStats :=
  {| fps := fps st;
     fpsMin := fps st;
     fpsMax := fps st;
     fpsString := pretty (fpsMax st) +:+ " / " +:+ pretty (fpsMin st) |}.

(** The text of the first label of the debug panel. *)
Definition fps_label (st : FpsStats) : string := "fps: " +:+ fpsString st.

(** What happens to the statistics between two frames: a sample, or the
    half-second tick. *)
Inductive FpsEvent : Type :=
| Sample (fps' : Z)
| Tick.

Definition fps_step (st : FpsStats) (e : FpsEvent) : FpsStats :=
  match e with
  | Sample fps' => drawDebug fps' st
  | Tick => fps_interval st
  end.

(** [HudRenderer::~HudRenderer]: the widgets are taken out of the GUI, the
    inventory view only when the pointer is not null. *)
Definition HudRenderer_delete (s : State) : World :=
  let '(h, w) := s in
  let w := call (gui_remove GrabbedItemView) w in
  let w :=
    match inventoryView h with
    | Some view => call (gui_remove (InventoryViewNode view)) w
    | None => w
    end in
  let w := call (gui_remove HotbarView) w in
  let w := call (gui_remove DarkOverlay) w in
  let w := call (gui_remove ContentAccessPanel) w in
  call (gui_remove DebugPanel) w.

End HudLife.

(** ** Predicates of the further properties *)

Module ExtraSpec.
Import Gui UiDoc Hud HudSpec HudLife.

(** The non-empty ids of the nodes of a list, in order. *)
Definition ids (l : list UINode) : list string :=
  List.filter (fun i => negb (empty i)) (List.map getId l).

(** The six kinds of widget the renderer hands to the GUI. *)
Definition widget (e : GuiElement) : nat :=
  match e with
  | DarkOverlay => 0
  | HotbarView => 1
  | DebugPanel => 2
  | ContentAccessPanel => 3
  | GrabbedItemView => 4
  | InventoryViewNode _ => 5
  end%nat.

(** What one call does to the number of widgets of kind [k] in the GUI. *)
Definition gui_delta (k : nat) (c : Call) : Z :=
  match c with
  | gui_add e | gui_addBack e => if Nat.eqb (widget e) k then 1 else 0
  | gui_remove e => if Nat.eqb (widget e) k then -1 else 0
  | on_ui_open _ _ | on_ui_close _ _ => 0
  end.

(** What one call does to the number of layouts the scripts hold open. *)
Definition script_delta (c : Call) : Z :=
  match c with
  | on_ui_open _ _ => 1
  | on_ui_close _ _ => -1
  | _ => 0
  end.

(** The sum of a weight over a trace. *)
Definition total (f : Call -> Z) (cs : list Call) : Z :=
  fold_right (fun c acc => f c + acc) 0 cs.

(** [1] for true, [0] for false. *)
Definition b2z (b : bool) : Z := if b then 1 else 0.

(** The view [openInventory] makes of the root node of the layout. *)
Definition layout_view (node : UINode) : InventoryView :=
  bind PlayerInventory
    {| origin := FromLayout node; bound := None; interactive := true |}.

(** The three inventory members agree: both pointers are null and the flag is
    false, or both are set, the flag is true, and the view is the one made of
    the document's root, bound to the player's inventory. *)
Definition members_agree (h : HudRenderer) : Prop :=
  match inventoryView h, inventoryDocument h with
  | Some view, Some doc =>
      inventoryOpen h = true /\
      exists node, as_inventory_view (getRoot doc) = Some node /\
                   view = layout_view node
  | None, None => inventoryOpen h = false
  | _, _ => False
  end.

(** What the blocks of [update] before the cursor block may do, next to the
    moves of the flags: they keep the content, the focus, the player, the
    layouts and the cursor lock, they leave the grabbed stack or empty it,
    and they extend the call trace by calls that open or close as many
    layouts and add or remove as many inventory views as the flag
    [inventoryOpen] tells, and no other widget. *)
Record phase (s s' : State) : Prop := {
  ph_itemDefs : itemDefs s'.2 = itemDefs s.2;
  ph_focus : focusCaught s'.2 = focusCaught s.2;
  ph_player : player s'.2 = player s.2;
  ph_layouts : layouts s'.2 = layouts s.2;
  ph_cursor : cursor_locked s'.2 = cursor_locked s.2;
  ph_views : contentAccess s'.1 = contentAccess s.1 /\
             hotbarView s'.1 = hotbarView s.1;
  ph_grabbed : grabbedItem s'.2 = grabbedItem s.2 \/
               grabbedItem s'.2 = ItemStack_empty;
  ph_trace : exists d,
      calls s'.2 = calls s.2 ++ d /\
      total script_delta d =
        b2z (inventoryOpen s'.1) - b2z (inventoryOpen s.1) /\
      forall k, total (gui_delta k) d =
                if Nat.eqb k 5
                then b2z (inventoryOpen s'.1) - b2z (inventoryOpen s.1)
                else 0;
  ph_agree : members_agree s.1 -> members_agree s'.1
}.

(** An engine that leaves the call trace alone, and one that leaves the
    loaded layouts alone. *)
Definition keeps_calls (f : Frame) : Prop :=
  forall w, calls (engine f w) = calls w.
Definition keeps_layout (f : Frame) : Prop :=
  forall w, layout_present w -> layout_present (engine f w).

(** The statistics after a list of samples. *)
Definition drawDebug_all (samples : list Z) (st : FpsStats) : FpsStats :=
  fold_left (fun st fps' => drawDebug fps' st) samples st.

(** A line whose two ends lie opposite each other about a point. *)
Definition centred_on (cx cy : Z) (c : DrawCall) : Prop :=
  match c with
  | batch_line x1 y1 x2 y2 _ _ _ _ => x1 + x2 = 2 * cx /\ y1 + y2 = 2 * cy
  | _ => True
  end.

(** The square of side 12 around the centre of the viewport. *)
Definition near_centre (width height x y : Z) : Prop :=
  width / 2 - 6 <= x <= width / 2 + 6 /\ height / 2 - 6 <= y <= height / 2 + 6.

(** Both ends of a line lie in that square. *)
Definition within_centre (width height : Z) (c : DrawCall) : Prop :=
  match c with
  | batch_line x1 y1 x2 y2 _ _ _ _ =>
      near_centre width height x1 y1 /\ near_centre width height x2 y2
  | _ => True
  end.

(** The flags as the ESCAPE block finds them, and whether the key acts: the
    pause survives only with a menu page, the inventory only on a visible
    HUD. *)
Definition pause_kept (s : State) : bool :=
  pause s.1 && negb (Menu_current_panel_null (menu s.2)).
Definition open_kept (vis : bool) (s : State) : bool :=
  inventoryOpen s.1 && vis.
Definition escape_acts (ev : Events) (s : State) : bool :=
  jpressed ev keycode.ESCAPE && negb (focusCaught s.2).

(** The flags after the ESCAPE block, and whether the inventory key acts. *)
Definition pause_next (ev : Events) (vis : bool) (s : State) : bool :=
  if escape_acts ev s
  then negb (pause_kept s) && negb (open_kept vis s)
  else pause_kept s.
Definition open_escaped (ev : Events) (vis : bool) (s : State) : bool :=
  if escape_acts ev s
  then pause_kept s && open_kept vis s
  else open_kept vis s.
Definition key_acts (ev : Events) (vis : bool) (s : State) : bool :=
  vis && jactive_hud_inventory ev && negb (pause_next ev vis s).
Definition open_next (ev : Events) (vis : bool) (s : State) : bool :=
  if key_acts ev vis s
  then negb (open_escaped ev vis s)
  else open_escaped ev vis s.

(** Whether one [update] closes the inventory at some point. *)
Definition closes_during (ev : Events) (vis : bool) (s : State) : bool :=
  (inventoryOpen s.1 && negb vis)
  || (escape_acts ev s && negb (pause_kept s) && open_kept vis s)
  || (key_acts ev vis s && open_escaped ev vis s).

End ExtraSpec.

(** * Properties of UiDocument *)

Module UiDocProofs.
Import Gui UiDoc HudSpec.

(** Induction over the tree that also gives the hypothesis for every child of
    a container. *)
Lemma UINode_tree_ind (P : UINode -> Prop) :
  (forall ptr id, P (Leaf ptr id)) ->
  (forall ptr id iv nodes, Forall P nodes -> P (Container ptr id iv nodes)) ->
  forall node, P node.
Proof.
  intros HLeaf HCont.
  fix IH 1. intros [ptr id | ptr id iv nodes].
  - apply HLeaf.
  - apply HCont. induction nodes as [| n ns IHns]; constructor.
    + apply IH.
    + exact IHns.
Qed.

Lemma empty_spec (s : string) : empty s = true <-> s = "".
Proof. destruct s; simpl; split; intros H; congruence. Qed.

Lemma record_nonempty map node :
  getId node <> "" -> record map node = <[getId node := node]> map.
Proof.
  intros H. unfold record.
  destruct (empty (getId node)) eqn:E; [| reflexivity].
  apply empty_spec in E. contradiction.
Qed.

Lemma record_empty map node : getId node = "" -> record map node = map.
Proof. intros H. unfold record. rewrite H. reflexivity. Qed.

Lemma collect_unfold map node :
  collect map node =
  match as_container node with
  | None => record map node
  | Some nodes => collect_nodes (record map node) nodes
  end.
Proof.
  destruct node as [ptr id | ptr id iv nodes]; [reflexivity |].
  unfold collect_nodes, record. simpl.
  generalize (if negb (empty id)
              then <[id:=Container ptr id iv nodes]> map else map).
  induction nodes as [| n ns IH]; intros m; simpl; [reflexivity | apply IH].
Qed.

(** [collect] is a left fold of [record] over the pre-order listing. *)
Lemma collect_preorder node :
  forall map, collect map node = fold_left record (preorder node) map.
Proof.
  induction node as [ptr id | ptr id iv nodes IH] using UINode_tree_ind;
    intros map; rewrite collect_unfold; simpl; [reflexivity |].
  generalize (record map (Container ptr id iv nodes)). clear map.
  unfold collect_nodes.
  induction IH as [| n ns Hn _ IHns]; intros m; simpl; [reflexivity |].
  rewrite fold_left_app, <- Hn. apply IHns.
Qed.

Lemma reachable_preorder root node :
  reachable root node <-> In node (preorder root).
Proof.
  split.
  - induction 1 as [n | ptr id iv nodes sub n Hin _ IH]; simpl.
    + destruct n; simpl; auto.
    + right. apply in_flat_map. eauto.
  - revert node.
    induction root as [ptr id | ptr id iv nodes IH] using UINode_tree_ind;
      intros node; simpl.
    + intros [<- | []]. constructor.
    + intros [<- | Hin]; [constructor |].
      apply in_flat_map in Hin as (sub & Hsub & Hin).
      rewrite Forall_forall in IH.
      eapply reach_child; [exact Hsub |].
      apply IH; [| exact Hin]. apply list_elem_of_In. exact Hsub.
Qed.

(** Nodes whose id differs from [i] leave the entry of [i] alone. *)
Lemma fold_record_other (l : list UINode) (i : string) :
  (forall n, In n l -> getId n <> i) ->
  forall m : uinodes_map, fold_left record l m !! i = m !! i.
Proof.
  induction l as [| a l IH]; intros Hl m; simpl; [reflexivity |].
  rewrite IH by (intros n Hn; apply Hl; right; exact Hn).
  unfold record. destruct (negb (empty (getId a))); [| reflexivity].
  apply lookup_insert_ne. apply Hl. left. reflexivity.
Qed.

(** The last node of the listing that carries id [i] is the one stored. *)
Lemma fold_record_last (l1 l2 : list UINode) (n : UINode) (m : uinodes_map) :
  getId n <> "" ->
  (forall n', In n' l2 -> getId n' <> getId n) ->
  fold_left record (l1 ++ n :: l2) m !! getId n = Some n.
Proof.
  intros Hne Hl2. rewrite fold_left_app. simpl.
  rewrite fold_record_other by exact Hl2.
  rewrite record_nonempty by exact Hne. apply lookup_insert_eq.
Qed.

(** Some node of the listing with id [i] is stored under [i]. *)
Lemma fold_record_some (l : list UINode) (i : string) (m : uinodes_map) :
  i <> "" ->
  (exists n, In n l /\ getId n = i) ->
  exists n', In n' l /\ getId n' = i /\ fold_left record l m !! i = Some n'.
Proof.
  intros Hi. induction l as [| a l IH] using rev_ind; intros (n & Hin & Hid).
  - destruct Hin.
  - rewrite fold_left_app. simpl.
    destruct (decide (getId a = i)) as [Ha | Ha].
    + exists a. split; [apply in_app_iff; right; left; reflexivity |].
      split; [exact Ha |].
      rewrite record_nonempty by congruence. rewrite Ha.
      apply lookup_insert_eq.
    + apply in_app_iff in Hin as [Hin | [-> | []]]; [| contradiction].
      destruct IH as (n' & Hin' & Hid' & Hlk); [eauto |].
      exists n'. split; [apply in_app_iff; left; exact Hin' |].
      split; [exact Hid' |].
      unfold record. destruct (negb (empty (getId a))); [| exact Hlk].
      rewrite lookup_insert_ne by exact Ha. exact Hlk.
Qed.

(** Every entry either was there before or is a listed node under its own,
    non-empty id. *)
Lemma fold_record_entry (l : list UINode) (k : string) (v : UINode) :
  forall m : uinodes_map,
  fold_left record l m !! k = Some v ->
  m !! k = Some v \/ (In v l /\ getId v = k /\ k <> "").
Proof.
  induction l as [| a l IH]; intros m H; simpl in *; [left; exact H |].
  apply IH in H as [H | (Hin & Hid & Hk)]; [| right; auto].
  unfold record in H. destruct (empty (getId a)) eqn:E; simpl in H.
  - left. exact H.
  - apply lookup_insert_Some in H as [[<- <-] | [_ H]]; [| left; exact H].
    right. split; [left; reflexivity |]. split; [reflexivity |].
    intros Hk. apply empty_spec in Hk. congruence.
Qed.

(** C1. The constructor indexes the tree: every node reachable from the root
    with a non-empty id has an entry under that id, holding a reachable node
    that carries this id; and every entry of the map holds a reachable node
    under its own id, which is not empty, so that no node with an empty id is
    in the map. *)
Theorem UiDocument_indexes_reachable_ids
    (id : string) (script : uidocscript) (root : UINode) (env : Z) :
  let doc := UiDocument_new id script root env in
  (forall node, reachable root node -> empty (getId node) = false ->
     exists n, getMap doc !! getId node = Some n /\
               getId n = getId node /\ reachable root n) /\
  (forall k n, getMap doc !! k = Some n ->
     empty (getId n) = false /\ getId n = k /\ reachable root n).
Proof.
  simpl. unfold getMap. simpl. rewrite collect_preorder. split.
  - intros node Hreach Hne.
    assert (Hid : getId node <> "").
    { intros E. apply empty_spec in E. congruence. }
    destruct (fold_record_some (preorder root) (getId node) ∅ Hid)
      as (n & Hin & Hn & Hlk).
    + exists node. split; [apply reachable_preorder; exact Hreach | reflexivity].
    + exists n. split; [exact Hlk |]. split; [exact Hn |].
      apply reachable_preorder. exact Hin.
  - intros k n H.
    apply fold_record_entry in H as [H | (Hin & Hid & Hk)].
    + rewrite lookup_empty in H. discriminate.
    + split; [| split; [exact Hid | apply reachable_preorder; exact Hin]].
      destruct (empty (getId n)) eqn:E; [| reflexivity].
      apply empty_spec in E. congruence.
Qed.

(** C10. Duplicate ids resolve last-wins: when the pre-order listing of the
    tree is [l1 ++ n :: l2], the id of [n] is not empty and no node of [l2]
    carries it, the map has [n], and nothing else, under that id, however
    many nodes of [l1] share the id. *)
Theorem UiDocument_duplicate_ids_last_wins
    (id : string) (script : uidocscript) (root : UINode) (env : Z)
    (l1 l2 : list UINode) (n : UINode) :
  preorder root = l1 ++ n :: l2 ->
  empty (getId n) = false ->
  (forall n', In n' l2 -> getId n' <> getId n) ->
  forall v, getMap (UiDocument_new id script root env) !! getId n = Some v
            <-> v = n.
Proof.
  intros Hpre Hne Hlast v. unfold getMap. simpl.
  rewrite collect_preorder, Hpre, fold_record_last; [| | exact Hlast].
  - split; congruence.
  - intros E. apply empty_spec in E. congruence.
Qed.

Lemma UiDocument_duplicate_ids_last_wins_witness :
  getMap (UiDocument_new "doc" {| environment := 0; onopen := false; onclose := false |}
            sample_tree 0) !! "a" = Some (Leaf 5 "a").
Proof.
  apply (UiDocument_duplicate_ids_last_wins "doc" _ sample_tree 0
           [sample_tree; Leaf 1 "a"; Container 2 "a" true [Leaf 3 "b"; Leaf 4 ""];
            Leaf 3 "b"; Leaf 4 ""]
           [Leaf 6 "b"] (Leaf 5 "a")).
  - reflexivity.
  - reflexivity.
  - intros n' [<- | []]. simpl. discriminate.
  - reflexivity.
Defined.

(** The index of the sample tree: the last ["a"] and the last ["b"] in
    pre-order, and no entry for the empty id of node 4. *)
Example collect_sample_tree :
  let m := collect ∅ sample_tree in
  m !! "a" = Some (Leaf 5 "a") /\ m !! "b" = Some (Leaf 6 "b") /\
  m !! "root" = Some sample_tree /\ m !! "" = None /\ size m = 3%nat.
Proof. vm_compute. repeat split; reflexivity. Qed.

End UiDocProofs.

(** * Properties of HudRenderer *)

Module HudProofs.
Import Gui UiDoc Hud HudSpec.

(** ** Opening, closing and the phases of [update] *)

Lemma closeInventory_Some (s s' : State) :
  closeInventory s = Some s' ->
  exists view,
    inventoryView s.1 = Some view /\
    s' = (with_inventory false None None s.1,
          call (gui_remove (InventoryViewNode view))
            (with_grabbedItem ItemStack_empty
               (call (on_ui_close (inventoryDocument s.1) (bound view)) s.2))).
Proof.
  destruct s as [h w]. unfold closeInventory. simpl.
  destruct (inventoryView h) as [view |]; simpl; [| discriminate].
  intros [= <-]. exists view. split; reflexivity.
Qed.

Lemma closeInventory_returns (s : State) :
  is_Some (inventoryView s.1) -> is_Some (closeInventory s).
Proof.
  destruct s as [h w]. simpl. intros [view Hview].
  unfold closeInventory. rewrite Hview. simpl. eexists. reflexivity.
Qed.

Lemma openInventory_Some (s s' : State) :
  openInventory s = Some s' ->
  exists doc node,
    getLayout "core:inventory" s.2 = Some doc /\
    as_inventory_view (getRoot doc) = Some node /\
    s'.1 = with_inventory true
             (Some {| origin := FromLayout node; bound := Some PlayerInventory;
                      interactive := true |})
             (Some doc) s.1 /\
    player s'.2 = player s.2 /\ menu s'.2 = menu s.2 /\
    cursor_locked s'.2 = cursor_locked s.2 /\
    grabbedItem s'.2 = grabbedItem s.2 /\
    layouts s'.2 = layouts s.2.
Proof.
  destruct s as [h w]. unfold openInventory, getLayout. simpl.
  destruct (layouts w !! "core:inventory") as [doc |] eqn:Hdoc; simpl;
    [| discriminate].
  destruct (as_inventory_view (getRoot doc)) as [node |] eqn:Hnode; simpl;
    [| discriminate].
  intros [= <-]. exists doc, node. simpl. auto 10.
Qed.

Lemma openInventory_returns (s : State) :
  layout_present s.2 -> is_Some (openInventory s).
Proof.
  destruct s as [h w]. simpl. intros (doc & node & Hdoc & Hnode).
  unfold openInventory, getLayout in *. simpl. rewrite Hdoc. simpl.
  rewrite Hnode. simpl. eexists. reflexivity.
Qed.

(** [update] succeeds exactly when its three fallible blocks do, and is then
    the composition of its blocks. *)
Lemma update_Some (ev : Events) (vis : bool) (s s' : State) :
  update ev vis s = Some s' <->
  exists s1 s2 s3,
    update_hidden vis (update_visibility vis s) = Some s1 /\
    update_escape ev (update_menu_closed s1) = Some s2 /\
    update_inventory_key ev vis s2 = Some s3 /\
    s' = update_slot ev (update_panels vis (update_cursor s3)).
Proof.
  unfold update. split.
  - destruct (update_hidden vis (update_visibility vis s)) as [s1 |] eqn:H1;
      simpl; [| discriminate].
    destruct (update_escape ev (update_menu_closed s1)) as [s2 |] eqn:H2;
      simpl; [| discriminate].
    destruct (update_inventory_key ev vis s2) as [s3 |] eqn:H3;
      simpl; [| discriminate].
    intros [= <-]. exists s1, s2, s3. auto.
  - intros (s1 & s2 & s3 & H1 & H2 & H3 & ->). rewrite H1. simpl.
    rewrite H2. simpl. rewrite H3. reflexivity.
Qed.

Lemma closeInventory_block (s s' : State) :
  closeInventory s = Some s' ->
  block s s' (pause s.1) (inventoryOpen s.1) (pause s.1) false.
Proof.
  intros H. apply closeInventory_Some in H as (view & _ & ->).
  split; simpl; try reflexivity. intros _ [=].
Qed.

Lemma openInventory_block (s s' : State) :
  openInventory s = Some s' ->
  block s s' (pause s.1) (inventoryOpen s.1) (pause s.1) true.
Proof.
  intros H. apply openInventory_Some in H
    as (doc & node & _ & _ & Hh & Hp & _ & _ & _ & Hl).
  split; rewrite ?Hh; simpl; try reflexivity; try exact Hp; try exact Hl.
  intros _ _. eexists. reflexivity.
Qed.

Lemma update_hidden_block (vis : bool) (s s' : State) :
  update_hidden vis s = Some s' ->
  block s s' (pause s.1) (inventoryOpen s.1)
        (pause s.1) (inventoryOpen s.1 && vis).
Proof.
  unfold update_hidden.
  destruct vis, (inventoryOpen s.1) eqn:Hi; simpl;
    try (intros [= <-]; split; auto).
  intros H. apply closeInventory_block in H. rewrite Hi in H. exact H.
Qed.

Lemma update_menu_closed_block (s : State) :
  block s (update_menu_closed s) (pause s.1) (inventoryOpen s.1)
        (pause s.1 && negb (Menu_current_panel_null (menu s.2)))
        (inventoryOpen s.1).
Proof.
  destruct s as [h w]. unfold update_menu_closed. simpl.
  destruct (pause h) eqn:Hp, (Menu_current_panel_null (menu w));
    split; simpl; auto.
Qed.

Lemma update_escape_block (ev : Events) (s s' : State) :
  update_escape ev s = Some s' ->
  let esc := jpressed ev keycode.ESCAPE && negb (focusCaught s.2) in
  block s s' (pause s.1) (inventoryOpen s.1)
        (if esc then negb (pause s.1) && negb (inventoryOpen s.1) else pause s.1)
        (if esc then pause s.1 && inventoryOpen s.1 else inventoryOpen s.1).
Proof.
  destruct s as [h w]. unfold update_escape. cbn [fst snd].
  destruct (jpressed ev keycode.ESCAPE && negb (focusCaught w));
    [| intros [= <-]; split; auto].
  destruct (pause h) eqn:Hp; [intros [= <-]; split; simpl; auto |].
  destruct (inventoryOpen h) eqn:Hi.
  - intros H. apply closeInventory_block in H. cbn [fst snd] in H.
    rewrite Hp, Hi in H. exact H.
  - intros [= <-]. split; simpl; auto.
Qed.

Lemma update_inventory_key_block (ev : Events) (vis : bool) (s s' : State) :
  update_inventory_key ev vis s = Some s' ->
  block s s' (pause s.1) (inventoryOpen s.1) (pause s.1)
        (if vis && jactive_hud_inventory ev && negb (pause s.1)
         then negb (inventoryOpen s.1) else inventoryOpen s.1).
Proof.
  unfold update_inventory_key.
  destruct (vis && jactive_hud_inventory ev); simpl;
    [| intros [= <-]; split; auto].
  destruct (pause s.1) eqn:Hp; simpl; [intros [= <-]; split; auto |].
  destruct (inventoryOpen s.1) eqn:Hi; simpl; intros H.
  - apply closeInventory_block in H. rewrite Hp, Hi in H. exact H.
  - apply openInventory_block in H. rewrite Hp, Hi in H. exact H.
Qed.

(** The last blocks, lines 312-338, leave the two flags alone. *)
Lemma update_tail_flags (ev : Events) (vis : bool) (s : State) :
  let s' := update_slot ev (update_panels vis (update_cursor s)) in
  pause s'.1 = pause s.1 /\ inventoryOpen s'.1 = inventoryOpen s.1 /\
  inventoryView s'.1 = inventoryView s.1 /\
  cursor_locked s'.2 = negb (pause s.1 || inventoryOpen s.1) /\
  player s'.2 =
    update_scroll ev s.1 (update_number_keys ev (player s.2)) /\
  hotbarView_visible s'.1 = vis /\
  debugPanel_visible s'.1 = debugPanel_visible s.1.
Proof.
  destruct s as [h w]. unfold update_cursor. simpl.
  destruct (pause h) eqn:Hp, (inventoryOpen h) eqn:Hi,
    (cursor_locked w) eqn:Hc; simpl;
    unfold update_scroll; simpl; rewrite ?Hp, ?Hi, ?Hc; simpl; auto 10.
Qed.

(** How one [update] moves the two flags, block after block. *)
Lemma update_blocks (ev : Events) (vis : bool) (s s' : State) :
  update ev vis s = Some s' ->
  exists s1 s2 s3,
    block (update_visibility vis s) s1 (pause s.1) (inventoryOpen s.1)
          (pause s.1) (inventoryOpen s.1 && vis) /\
    block s1 s2 (pause s1.1) (inventoryOpen s1.1)
          (let p := pause s1.1 && negb (Menu_current_panel_null (menu s1.2)) in
           if jpressed ev keycode.ESCAPE && negb (focusCaught s1.2)
           then negb p && negb (inventoryOpen s1.1) else p)
          (let p := pause s1.1 && negb (Menu_current_panel_null (menu s1.2)) in
           if jpressed ev keycode.ESCAPE && negb (focusCaught s1.2)
           then p && inventoryOpen s1.1 else inventoryOpen s1.1) /\
    block s2 s3 (pause s2.1) (inventoryOpen s2.1) (pause s2.1)
          (if vis && jactive_hud_inventory ev && negb (pause s2.1)
           then negb (inventoryOpen s2.1) else inventoryOpen s2.1) /\
    s' = update_slot ev (update_panels vis (update_cursor s3)).
Proof.
  intros H. apply update_Some in H as (s1 & s2 & s3 & H1 & H2 & H3 & ->).
  exists s1, s2, s3. split; [| split; [| split; [| reflexivity]]].
  - apply update_hidden_block in H1. destruct s as [h w]. exact H1.
  - apply update_escape_block in H2.
    pose proof (update_menu_closed_block s1) as H0.
    assert (Hf : focusCaught (update_menu_closed s1).2 = focusCaught s1.2).
    { destruct s1 as [h w]. unfold update_menu_closed. simpl.
      destruct (pause h && Menu_current_panel_null (menu w)); reflexivity. }
    simpl in H2. rewrite Hf in H2.
    destruct H0 as [_ _ P0 I0 Q0 L0 D0 V0], H2 as [_ _ P2 I2 Q2 L2 D2 V2].
    rewrite P0, I0 in *.
    split; try reflexivity; try congruence; auto.
  - apply update_inventory_key_block in H3. exact H3.
Qed.

(** The blocks before the digit keys leave the player, the layouts and the
    view invariant as they find them. *)
Lemma update_blocks_frame (ev : Events) (vis : bool) (s s' : State) :
  update ev vis s = Some s' ->
  exists s3,
    s' = update_slot ev (update_panels vis (update_cursor s3)) /\
    player s3.2 = player s.2 /\ layouts s3.2 = layouts s.2 /\
    debugPanel_visible s3.1 = debug (player s.2) && vis /\
    (view_present s.1 -> view_present s3.1).
Proof.
  intros H. apply update_blocks in H as (s1 & s2 & s3 & B1 & B2 & B3 & ->).
  exists s3. split; [reflexivity |].
  destruct B1 as [_ _ _ _ Q1 L1 D1 V1], B2 as [_ _ _ _ Q2 L2 D2 V2],
    B3 as [_ _ _ _ Q3 L3 D3 V3].
  rewrite Q3, Q2, Q1, L3, L2, L1, D3, D2, D1. destruct s as [h w].
  repeat split; auto.
Qed.

(** One [update] keeps the two flags from being set together. *)
Lemma update_exclusive (ev : Events) (vis : bool) (s s' : State) :
  update ev vis s = Some s' ->
  pause s.1 && inventoryOpen s.1 = false ->
  pause s'.1 && inventoryOpen s'.1 = false.
Proof.
  intros H E. apply update_blocks in H as (s1 & s2 & s3 & B1 & B2 & B3 & ->).
  destruct (update_tail_flags ev vis s3) as (Hp & Hi & _). rewrite Hp, Hi.
  destruct B1 as [_ _ P1 I1 _ _ _ _], B2 as [_ _ P2 I2 _ _ _ _],
    B3 as [_ _ P3 I3 _ _ _ _].
  rewrite P3, I3, P2, I2, P1, I1. simpl.
  destruct (pause s.1), (inventoryOpen s.1), vis,
    (Menu_current_panel_null (menu s1.2)),
    (jpressed ev keycode.ESCAPE && negb (focusCaught s1.2)),
    (jactive_hud_inventory ev); simpl in *; congruence.
Qed.

(** One [update] keeps the view with an open inventory, and then returns
    whenever the layout of the inventory can be opened. *)
Lemma update_view_present (ev : Events) (vis : bool) (s s' : State) :
  update ev vis s = Some s' -> view_present s.1 -> view_present s'.1.
Proof.
  intros H V. apply update_blocks_frame in H as (s3 & -> & _ & _ & _ & V3).
  destruct (update_tail_flags ev vis s3) as (_ & Hi & Hv & _).
  unfold view_present. rewrite Hi, Hv. apply V3, V.
Qed.

Lemma update_layouts (ev : Events) (vis : bool) (s s' : State) :
  update ev vis s = Some s' -> layouts s'.2 = layouts s.2.
Proof.
  intros H. apply update_blocks_frame in H as (s3 & -> & _ & L & _).
  rewrite <- L. destruct s3 as [h3 w3]. unfold update_cursor. simpl.
  destruct (Bool.eqb (pause h3 || inventoryOpen h3) (cursor_locked w3));
    reflexivity.
Qed.

Lemma update_returns (ev : Events) (vis : bool) (s : State) :
  view_present s.1 -> layout_present s.2 -> is_Some (update ev vis s).
Proof.
  intros V L.
  assert (H1 : exists s1, update_hidden vis (update_visibility vis s) = Some s1
                          /\ view_present s1.1 /\ layouts s1.2 = layouts s.2).
  { destruct s as [h w]. unfold update_hidden. cbn [fst snd] in *.
    unfold update_visibility. cbn [fst snd].
    destruct (negb vis && inventoryOpen (with_debugPanel_visible
                (debug (player w) && vis) h)) eqn:E.
    - apply andb_true_iff in E as [_ E]. simpl in E.
      destruct (V E) as [view Hview].
      unfold closeInventory. simpl. rewrite Hview. simpl.
      eexists. split; [reflexivity |]. split; [intros [=] | reflexivity].
    - eexists. split; [reflexivity |]. split; [exact V | reflexivity]. }
  destruct H1 as (s1 & H1 & V1 & L1).
  assert (H2 : exists s2, update_escape ev (update_menu_closed s1) = Some s2
                          /\ view_present s2.1 /\ layouts s2.2 = layouts s1.2).
  { destruct s1 as [h w]. unfold update_menu_closed, update_escape.
    cbn [fst snd] in *.
    destruct (pause h && Menu_current_panel_null (menu w));
      destruct (jpressed ev keycode.ESCAPE && negb (focusCaught w));
      simpl; eauto;
      destruct (pause h); simpl; eauto;
      destruct (inventoryOpen h) eqn:Hi; simpl; eauto;
      destruct (V1 Hi) as [view Hview]; unfold closeInventory;
      simpl; rewrite Hview; simpl;
      (eexists; split; [reflexivity |]; split; [intros [=] | reflexivity]). }
  destruct H2 as (s2 & H2 & V2 & L2).
  assert (H3 : is_Some (update_inventory_key ev vis s2)).
  { unfold update_inventory_key.
    destruct (vis && jactive_hud_inventory ev); [| eauto].
    destruct (pause s2.1); simpl; [eauto |].
    destruct (inventoryOpen s2.1) eqn:Hi.
    - apply closeInventory_returns, V2, Hi.
    - apply openInventory_returns.
      destruct L as (doc & node & Hdoc & Hnode). exists doc, node.
      unfold getLayout in *. rewrite L2, L1. auto. }
  destruct H3 as [s3 H3]. eexists. apply update_Some.
  exists s1, s2, s3. auto.
Qed.

(** ** The ESCAPE key and the inventory *)

(** The ESCAPE block of [update] (lines 292-302), on the state [s] as the
    block finds it, with the view present when the inventory is open: the
    block returns a state [s'], and when ESCAPE is pressed and the focus is
    not caught, exactly one of the three transitions takes place: [resumes]
    when paused, else [closes] when the inventory is open, else [pauses].
    Otherwise the state is unchanged and none of the three takes place. *)
Theorem update_escape_one_transition (ev : Events) (s : State) :
  view_present s.1 ->
  exists s', update_escape ev s = Some s' /\
    if jpressed ev keycode.ESCAPE && negb (focusCaught s.2) then
      if pause s.1 then
        resumes s s' /\ ~ closes s s' /\ ~ pauses s s'
      else if inventoryOpen s.1 then
        closes s s' /\ ~ resumes s s' /\ ~ pauses s s'
      else
        pauses s s' /\ ~ resumes s s' /\ ~ closes s s'
    else
      s' = s /\ ~ resumes s s' /\ ~ closes s s' /\ ~ pauses s s'.
Proof.
  intros V. destruct s as [h w]. unfold update_escape. cbn [fst snd] in *.
  destruct (jpressed ev keycode.ESCAPE && negb (focusCaught w)).
  - destruct (pause h) eqn:Hp.
    + eexists. split; [reflexivity |]. unfold resumes, closes, pauses. simpl.
      repeat split; auto; intros H; decompose [and] H; congruence.
    + destruct (inventoryOpen h) eqn:Hi.
      * destruct (closeInventory_returns (h, w) (V Hi)) as [s' Hs'].
        exists s'. split; [exact Hs' |].
        pose proof (closeInventory_block _ _ Hs') as [_ _ P I _ _ _ _].
        apply closeInventory_Some in Hs' as Hv. destruct Hv as (view & _ & E).
        unfold resumes, closes, pauses. cbn [fst snd] in *.
        rewrite P, I, Hp, Hi.
        repeat split; auto; try (rewrite E; reflexivity);
          intros H; decompose [and] H; congruence.
      * eexists. split; [reflexivity |]. unfold resumes, closes, pauses. simpl.
        repeat split; auto; intros H; decompose [and] H; congruence.
  - eexists. split; [reflexivity |]. unfold resumes, closes, pauses. simpl.
    repeat split; auto; intros H; decompose [and] H;
      destruct (pause h), (inventoryOpen h); congruence.
Qed.

Lemma update_escape_one_transition_witness :
  exists s', update_escape (key_event keycode.ESCAPE) sample_open = Some s' /\
             closes sample_open s' /\ ~ resumes sample_open s' /\
             ~ pauses sample_open s'.
Proof.
  destruct (update_escape_one_transition (key_event keycode.ESCAPE) sample_open)
    as (s' & Hs' & H).
  - intros _. eexists. reflexivity.
  - exists s'. split; [exact Hs' | exact H].
Defined.

(** C4. When [closeInventory] returns, the grabbed stack is the empty stack,
    [inventoryOpen] is false, the view and document pointers are null, and
    the player's inventory is what it was. *)
Theorem closeInventory_clears_interaction (s s' : State) :
  closeInventory s = Some s' ->
  grabbedItem s'.2 = ItemStack_empty /\
  inventoryOpen s'.1 = false /\
  inventoryView s'.1 = None /\
  inventoryDocument s'.1 = None /\
  inventory (player s'.2) = inventory (player s.2).
Proof.
  intros H. apply closeInventory_Some in H as (view & _ & ->).
  simpl. auto.
Qed.

Lemma closeInventory_clears_interaction_witness :
  exists s', closeInventory sample_open = Some s' /\
    grabbedItem s'.2 = ItemStack_empty /\
    inventoryOpen s'.1 = false /\
    inventoryView s'.1 = None /\
    inventoryDocument s'.1 = None /\
    inventory (player s'.2) = inventory (player sample_open.2).
Proof.
  eexists. split; [reflexivity |].
  apply (closeInventory_clears_interaction sample_open). reflexivity.
Defined.

(** ** Machine arithmetic *)

Lemma wrap_int_small (z : Z) : - 2 ^ 31 <= z < 2 ^ 31 -> wrap_int z = z.
Proof.
  intros H. unfold wrap_int.
  rewrite Z.mod_small by lia. lia.
Qed.

Lemma wrap_int_range (z : Z) : - 2 ^ 31 <= wrap_int z < 2 ^ 31.
Proof.
  unfold wrap_int.
  pose proof (Z.mod_pos_bound (z + 2 ^ 31) (2 ^ 32) ltac:(lia)). lia.
Qed.

Lemma wrap_size_t_small (z : Z) : 0 <= z < 2 ^ 64 -> wrap_size_t z = z.
Proof. intros H. unfold wrap_size_t. apply Z.mod_small. exact H. Qed.

(** [%] followed by the correction of a negative result is the remainder of
    the floored division. *)
Lemma rem_fixup (a : Z) :
  - 2 ^ 31 <= a < 2 ^ 31 ->
  let r := int_rem a 10 in
  (if r <? 0 then int_add r 10 else r) = a mod 10.
Proof.
  intros Ha. unfold int_rem, int_add. simpl.
  pose proof (Z.quot_rem' a 10) as Hqr.
  assert (Hr : - 10 < Z.rem a 10 < 10 /\
               (0 <= a -> 0 <= Z.rem a 10) /\ (a <= 0 -> Z.rem a 10 <= 0)).
  { destruct (Z.le_ge_cases 0 a) as [Hpos | Hneg].
    - pose proof (Z.rem_bound_pos a 10 Hpos ltac:(lia)). lia.
    - pose proof (Z.rem_nonpos a 10 ltac:(lia) Hneg).
      pose proof (Z.rem_bound_abs a 10 ltac:(lia)). lia. }
  destruct (Z.ltb_spec (Z.rem a 10) 0) as [Hlt | Hge].
  - rewrite wrap_int_small by lia.
    apply (Z.mod_unique_pos a 10 (a ÷ 10 - 1)); lia.
  - apply (Z.mod_unique_pos a 10 (a ÷ 10)); lia.
Qed.



(** ** The digit keys and the wheel *)

Lemma update_number_keys_unfold (ev : Events) (p : Player) :
  update_number_keys ev p =
  let p := fold_left (key_step ev) (seqZ keycode.NUM_1 9) p in
  if jpressed ev keycode.NUM_0 then setChosenSlot 9 p else p.
Proof. reflexivity. Qed.

(** The loop writes the slot only. *)
Lemma fold_key_step_frame (ev : Events) (l : list Z) :
  forall p, debug (fold_left (key_step ev) l p) = debug p /\
            inventory (fold_left (key_step ev) l p) = inventory p.
Proof.
  induction l as [| i l IH]; intros p; simpl; [auto |].
  destruct (IH (key_step ev p i)) as [-> ->].
  unfold key_step. destruct (jpressed ev i); auto.
Qed.

(** No key of the list pressed: nothing changes. *)
Lemma fold_key_step_none (ev : Events) (l : list Z) :
  Forall (fun j => jpressed ev j = false) l ->
  forall p, fold_left (key_step ev) l p = p.
Proof.
  induction 1 as [| i l Hi _ IH]; intros p; simpl; [reflexivity |].
  unfold key_step at 2. rewrite Hi. apply IH.
Qed.

(** The last pressed key of the list decides. *)
Lemma fold_key_step_last (ev : Events) (l1 l2 : list Z) (i : Z) (p : Player) :
  jpressed ev i = true ->
  Forall (fun j => jpressed ev j = false) l2 ->
  chosenSlot (fold_left (key_step ev) (l1 ++ i :: l2) p) =
  int_sub i keycode.NUM_1.
Proof.
  intros Hi Hl2. rewrite fold_left_app. simpl.
  rewrite fold_key_step_none by exact Hl2.
  unfold key_step. rewrite Hi. reflexivity.
Qed.

(** The loop keeps the slot within 0..9. *)
Lemma fold_key_step_range (ev : Events) (l : list Z) :
  Forall (fun j => keycode.NUM_1 <= j <= keycode.NUM_9) l ->
  forall p, 0 <= chosenSlot p <= 9 ->
            0 <= chosenSlot (fold_left (key_step ev) l p) <= 9.
Proof.
  induction 1 as [| i l Hi _ IH]; intros p Hp; simpl; [exact Hp |].
  apply IH. unfold key_step. destruct (jpressed ev i); [| exact Hp].
  simpl. unfold int_sub, keycode.NUM_1, keycode.NUM_9 in *.
  rewrite wrap_int_small; lia.
Qed.

Lemma digit_keys_split (N : Z) :
  1 <= N <= 9 ->
  seqZ keycode.NUM_1 9 =
  seqZ keycode.NUM_1 (N - 1) ++ (keycode.NUM_0 + N) :: seqZ (keycode.NUM_1 + N) (9 - N).
Proof.
  intros H.
  assert (HN : N = 1 \/ N = 2 \/ N = 3 \/ N = 4 \/ N = 5 \/ N = 6 \/
               N = 7 \/ N = 8 \/ N = 9) by lia.
  repeat destruct HN as [-> | HN]; try subst N; reflexivity.
Qed.

Lemma update_number_keys_frame (ev : Events) (p : Player) :
  debug (update_number_keys ev p) = debug p /\
  inventory (update_number_keys ev p) = inventory p.
Proof.
  rewrite update_number_keys_unfold. cbv zeta.
  destruct (fold_key_step_frame ev (seqZ keycode.NUM_1 9) p) as [Hd Hi].
  destruct (jpressed ev keycode.NUM_0);
    unfold setChosenSlot; cbn [debug inventory]; auto.
Qed.

Lemma update_number_keys_range (ev : Events) (p : Player) :
  0 <= chosenSlot p <= 9 -> 0 <= chosenSlot (update_number_keys ev p) <= 9.
Proof.
  intros Hp. rewrite update_number_keys_unfold. cbv zeta.
  destruct (jpressed ev keycode.NUM_0); [simpl; lia |].
  apply fold_key_step_range; [| exact Hp].
  apply Forall_forall. intros j Hj. apply elem_of_seqZ in Hj.
  unfold keycode.NUM_1, keycode.NUM_9 in *. lia.
Qed.

Lemma update_number_keys_zero (ev : Events) (p : Player) :
  jpressed ev keycode.NUM_0 = true ->
  chosenSlot (update_number_keys ev p) = 9.
Proof.
  intros H. rewrite update_number_keys_unfold. cbv zeta. rewrite H. reflexivity.
Qed.

Lemma update_number_keys_digit (ev : Events) (p : Player) (N : Z) :
  1 <= N <= 9 ->
  jpressed ev (keycode.NUM_0 + N) = true ->
  (forall M, N < M <= 9 -> jpressed ev (keycode.NUM_0 + M) = false) ->
  jpressed ev keycode.NUM_0 = false ->
  chosenSlot (update_number_keys ev p) = N - 1.
Proof.
  intros HN Hkey Hlater Hzero. rewrite update_number_keys_unfold. cbv zeta.
  rewrite Hzero, (digit_keys_split N HN), fold_key_step_last.
  - unfold int_sub, keycode.NUM_0, keycode.NUM_1.
    rewrite wrap_int_small; lia.
  - exact Hkey.
  - apply Forall_forall. intros j Hj. apply elem_of_seqZ in Hj.
    replace j with (keycode.NUM_0 + (j - keycode.NUM_0)) by lia.
    apply Hlater. unfold keycode.NUM_0, keycode.NUM_1 in *. lia.
Qed.

Lemma update_number_keys_idle (ev : Events) (p : Player) :
  (forall N, 0 <= N <= 9 -> jpressed ev (keycode.NUM_0 + N) = false) ->
  update_number_keys ev p = p.
Proof.
  intros H. rewrite update_number_keys_unfold. cbv zeta.
  pose proof (H 0 ltac:(lia)) as H0. rewrite Z.add_0_r in H0.
  rewrite H0, fold_key_step_none; [reflexivity |].
  apply Forall_forall. intros j Hj. apply elem_of_seqZ in Hj.
  replace j with (keycode.NUM_0 + (j - keycode.NUM_0)) by lia.
  apply H. unfold keycode.NUM_0, keycode.NUM_1 in *. lia.
Qed.

(** The player at the end of [update]: the digit keys, then the wheel, with
    the flags as [update] leaves them. *)
Lemma update_player (ev : Events) (vis : bool) (s s' : State) :
  update ev vis s = Some s' ->
  player s'.2 =
  update_scroll ev s'.1 (update_number_keys ev (player s.2)).
Proof.
  intros H. apply update_blocks_frame in H as (s3 & -> & Q & _).
  destruct (update_tail_flags ev vis s3) as (Hp & Hi & _ & _ & Hpl & _).
  rewrite Hpl, Q. unfold update_scroll. rewrite Hp, Hi. reflexivity.
Qed.

(** The slot the wheel block leaves. *)
Lemma update_scroll_slot (ev : Events) (h : HudRenderer) (p : Player) :
  0 <= chosenSlot p <= 9 ->
  chosenSlot (update_scroll ev h p) =
  if pause h || inventoryOpen h then chosenSlot p
  else int_sub (chosenSlot p) (scroll ev) mod 10.
Proof.
  intros Hp. unfold update_scroll, getChosenSlot.
  destruct (pause h), (inventoryOpen h); simpl; try reflexivity.
  destruct (Z.eqb_spec (scroll ev) 0) as [E | E]; simpl.
  - rewrite E. unfold int_sub.
    rewrite Z.sub_0_r, wrap_int_small, Z.mod_small by lia. reflexivity.
  - apply rem_fixup, wrap_int_range.
Qed.

Example update_scroll_wraps_down :
  chosenSlot (update_scroll (scroll_event 1) sample_hud
                (setChosenSlot 0 (player sample_world))) = 9.
Proof. reflexivity. Qed.

Example update_scroll_wraps_up :
  chosenSlot (update_scroll (scroll_event (-1)) sample_hud
                (setChosenSlot 9 (player sample_world))) = 0.
Proof. reflexivity. Qed.

Example update_scroll_far :
  chosenSlot (update_scroll (scroll_event 25) sample_hud
                (player sample_world)) = 8.
Proof. reflexivity. Qed.

(** With the keys 2 and 5 down the loop ends on slot 4; the key 0 beats
    both. *)
Example update_number_keys_two_keys :
  chosenSlot
    (update_number_keys
       {| jpressed := fun k => (k =? 50) || (k =? 53);
          jactive_hud_inventory := false; scroll := 0 |}
       (player sample_world)) = 4 /\
  chosenSlot
    (update_number_keys
       {| jpressed := fun k => (k =? 48) || (k =? 50) || (k =? 53);
          jactive_hud_inventory := false; scroll := 0 |}
       (player sample_world)) = 9.
Proof. split; reflexivity. Qed.



(** C6. Whatever the flags are, [update] hands the wheel block the player
    [p] that the digit keys have set: in [p] the chosen slot is 9 when the
    key 0 is pressed, and N-1 when the key N of 1..9 is pressed and neither
    a higher digit key nor the key 0 is pressed with it; and [p] is the
    player at the end of the call when the wheel does not act (no wheel
    movement, paused, or inventory open). *)
Theorem update_number_keys_select_slot
    (ev : Events) (vis : bool) (s s' : State) (N : Z) :
  update ev vis s = Some s' ->
  let p := update_number_keys ev (player s.2) in
  player s'.2 = update_scroll ev s'.1 p /\
  (jpressed ev keycode.NUM_0 = true -> chosenSlot p = 9) /\
  (1 <= N <= 9 ->
   jpressed ev (keycode.NUM_0 + N) = true ->
   (forall M, N < M <= 9 -> jpressed ev (keycode.NUM_0 + M) = false) ->
   jpressed ev keycode.NUM_0 = false ->
   chosenSlot p = N - 1) /\
  (scroll ev = 0 \/ pause s'.1 = true \/ inventoryOpen s'.1 = true ->
   player s'.2 = p).
Proof.
  intros H. cbv zeta. split; [exact (update_player _ _ _ _ H) |].
  split; [apply update_number_keys_zero |].
  split; [apply update_number_keys_digit |].
  rewrite (update_player _ _ _ _ H). unfold update_scroll.
  intros [-> | [-> | ->]]; simpl; rewrite ?andb_false_r; reflexivity.
Qed.

Lemma update_number_keys_select_slot_witness :
  exists s', update (key_event (keycode.NUM_0 + 7)) true sample_open = Some s' /\
             inventoryOpen s'.1 = true /\
             chosenSlot (player s'.2) = 6.
Proof.
  eexists. split; [reflexivity |]. split; [reflexivity |].
  destruct (update_number_keys_select_slot
              (key_event (keycode.NUM_0 + 7)) true sample_open _ 7 eq_refl)
    as (_ & _ & Hdigit & Hidle).
  rewrite Hidle by (left; reflexivity).
  apply Hdigit; [lia | reflexivity | | reflexivity].
  intros M HM. unfold key_event, keycode.NUM_0. simpl.
  apply Z.eqb_neq. lia.
Defined.

(** C9. At the end of every [update] the cursor is locked if and only if the
    HUD is neither paused nor showing the inventory. *)
Theorem update_cursor_tracks_overlay (ev : Events) (vis : bool) (s s' : State) :
  update ev vis s = Some s' ->
  cursor_locked s'.2 = negb (pause s'.1 || inventoryOpen s'.1).
Proof.
  intros H. apply update_Some in H as (s1 & s2 & s3 & _ & _ & _ & ->).
  destruct (update_tail_flags ev vis s3) as (Hp & Hi & _ & Hc & _).
  rewrite Hp, Hi. exact Hc.
Qed.

Lemma update_cursor_tracks_overlay_witness :
  exists s', update inventory_event true (sample_hud, sample_world) = Some s' /\
             inventoryOpen s'.1 = true /\ cursor_locked s'.2 = false.
Proof.
  eexists. split; [reflexivity |]. split; [reflexivity |].
  apply (update_cursor_tracks_overlay inventory_event true
           (sample_hud, sample_world)).
  reflexivity.
Defined.

(** C8. From a state where [pause] and [inventoryOpen] are both false, as
    the constructor leaves them, no sequence of [update] calls, whatever the
    events and whatever the engine does to the shared objects in between,
    reaches a state where both are true. *)
Theorem pause_and_inventory_exclusive (frames : list Frame) (s s' : State) :
  pause s.1 = false ->
  inventoryOpen s.1 = false ->
  run frames s = Some s' ->
  ~ (pause s'.1 = true /\ inventoryOpen s'.1 = true).
Proof.
  intros Hp Hi Hrun.
  assert (E : pause s.1 && inventoryOpen s.1 = false) by (rewrite Hp; reflexivity).
  clear Hp Hi.
  assert (E' : pause s'.1 && inventoryOpen s'.1 = false).
  { revert s E Hrun. induction frames as [| f frames IH]; intros s E Hrun.
    - simpl in Hrun. congruence.
    - simpl in Hrun.
      destruct (update (events f) (visible f) (s.1, engine f s.2))
        as [s1 |] eqn:Hup; simpl in Hrun; [| discriminate].
      apply (IH s1); [| exact Hrun].
      apply (update_exclusive _ _ _ _ Hup). exact E. }
  intros [Hp Hi]. rewrite Hp, Hi in E'. discriminate.
Qed.

(** The constructor's state has both flags false. *)
Lemma HudRenderer_new_flags (w : World) (s : State) :
  HudRenderer_new w = Some s ->
  pause s.1 = false /\ inventoryOpen s.1 = false /\ inventoryView s.1 = None.
Proof.
  unfold HudRenderer_new.
  destruct (createContentAccess _); simpl; [| discriminate].
  intros [= <-]. auto.
Qed.

Lemma pause_and_inventory_exclusive_witness :
  exists s0 s',
    HudRenderer_new sample_world = Some s0 /\
    run sample_frames s0 = Some s' /\
    ~ (pause s'.1 = true /\ inventoryOpen s'.1 = true).
Proof.
  eexists. eexists.
  split; [vm_compute; reflexivity |]. split; [vm_compute; reflexivity |].
  match goal with
  | |- ~ (pause ?s'.1 = true /\ _) =>
      apply (pause_and_inventory_exclusive sample_frames
               (default (sample_hud, sample_world)
                        (HudRenderer_new sample_world)) s');
      [reflexivity | reflexivity | vm_compute; reflexivity]
  end.
Defined.

(** The constructor returns for an item count that fits an [int], and its
    state has the view invariant. *)
Lemma HudRenderer_new_view_present (w : World) (s : State) :
  HudRenderer_new w = Some s -> view_present s.1.
Proof.
  intros H. apply HudRenderer_new_flags in H as (_ & Hi & _).
  intros Hopen. congruence.
Qed.

(** A run returns as long as the engine keeps the inventory layout loaded. *)
Lemma run_returns (frames : list Frame) :
  Forall (fun f => forall w, layout_present w -> layout_present (engine f w))
         frames ->
  forall s, view_present s.1 -> layout_present s.2 -> is_Some (run frames s).
Proof.
  induction 1 as [| f frames Hf _ IH]; intros s V L; simpl; [eauto |].
  destruct (update_returns (events f) (visible f) (s.1, engine f s.2))
    as [s1 Hs1]; [exact V | apply Hf, L |].
  rewrite Hs1. simpl. apply IH.
  - exact (update_view_present _ _ _ _ Hs1 V).
  - apply update_layouts in Hs1.
    destruct (Hf _ L) as (doc & node & Hdoc & Hnode). exists doc, node.
    unfold getLayout in *. rewrite Hs1. auto.
Qed.

(** ** What is shown *)

Lemma draw_Some (vp : Viewport) (s : State) (calls : list DrawCall) :
  draw vp s = Some calls ->
  List.filter is_line calls =
  if crosshair_shown s
  then List.filter is_line (crosshair (getWidth vp) (getHeight vp)) else [].
Proof.
  destruct s as [h w]. unfold draw, crosshair_shown. cbn [fst snd].
  destruct (getShader "ui" w); [| discriminate].
  destruct (inventoryOpen h); [destruct (inventoryView h) |]; simpl;
    try discriminate; intros [= <-];
    destruct (negb (pause h) && cursor_locked w && negb (debug (player w)));
    reflexivity.
Qed.

Example crosshair_1280x720 :
  crosshair 1280 720 =
  [ batch_lineWidth 2;
    batch_line 640 354 640 366 2 2 2 10;
    batch_line 646 360 634 360 2 2 2 10;
    batch_line 635 355 645 365 9 9 9 10;
    batch_line 645 355 635 365 9 9 9 10 ].
Proof. reflexivity. Qed.

(** C3, as the code has it. [update] shows the hotbar exactly when it is
    called with [visible] true, and the debug panel exactly when moreover the
    player's debug flag is set; [draw] composes the four lines of the
    crosshair exactly when the HUD is not paused, the cursor is locked and
    the debug flag is off, and draws no line otherwise. *)
Theorem hud_elements_follow_guards
    (ev : Events) (vis : bool) (s s' : State)
    (vp : Viewport) (sd : State) (calls : list DrawCall) :
  update ev vis s = Some s' ->
  draw vp sd = Some calls ->
  hotbarView_visible s'.1 = vis /\
  debugPanel_visible s'.1 = debug (player s.2) && vis /\
  List.filter is_line calls =
    (if crosshair_shown sd
     then List.filter is_line (crosshair (getWidth vp) (getHeight vp))
     else []) /\
  length (List.filter is_line calls) = if crosshair_shown sd then 4%nat else 0%nat.
Proof.
  intros Hup Hdraw.
  apply update_blocks_frame in Hup as (s3 & -> & _ & _ & D & _).
  destruct (update_tail_flags ev vis s3) as (_ & _ & _ & _ & _ & Hh & Hd).
  split; [exact Hh |]. split; [rewrite Hd; exact D |].
  rewrite (draw_Some _ _ _ Hdraw).
  split; [reflexivity |]. destruct (crosshair_shown sd); reflexivity.
Qed.

Lemma hud_elements_follow_guards_witness :
  exists s' calls,
    update no_events true (sample_hud, sample_world) = Some s' /\
    draw sample_viewport s' = Some calls /\
    hotbarView_visible s'.1 = true /\
    debugPanel_visible s'.1 = false /\
    length (List.filter is_line calls) = 4%nat.
Proof.
  eexists. eexists.
  split; [vm_compute; reflexivity |]. split; [vm_compute; reflexivity |].
  match goal with
  | |- hotbarView_visible ?s'.1 = _ /\ _ /\ length (List.filter _ ?calls) = _ =>
      destruct (hud_elements_follow_guards no_events true
                  (sample_hud, sample_world) s' sample_viewport s' calls)
        as (Hh & Hd & _ & Hn);
      [vm_compute; reflexivity | vm_compute; reflexivity |]
  end.
  split; [exact Hh |]. split; [exact Hd | exact Hn].
Defined.

(** C3, as it is stated, fails: with the HUD hidden ([visible] false) and
    ESCAPE pressed, an [update] from the unpaused sample state leaves the
    hotbar and the debug panel invisible, and the [draw] that follows draws
    no line of the crosshair. *)
Lemma hud_elements_always_shown_counterexample :
  exists s' calls,
    update (key_event keycode.ESCAPE) false (sample_hud, sample_world) = Some s' /\
    draw sample_viewport s' = Some calls /\
    pause s'.1 = true /\
    hotbarView_visible s'.1 = false /\
    debugPanel_visible s'.1 = false /\
    List.filter is_line calls = [].
Proof.
  eexists. eexists.
  split; [vm_compute; reflexivity |]. split; [vm_compute; reflexivity |].
  repeat split; reflexivity.
Qed.

(** ** The content access panel *)

(** The loop stores the stack [(id, 1)] in slot [id - 1] for the ids
    [a, a+1, ...] it runs through, and touches no other slot. *)
Lemma fill_access_seq (len : nat) :
  forall (a : Z) (inv : Inventory),
  1 <= a ->
  a - 1 + Z.of_nat len <= Z.of_nat (length (slots inv)) ->
  a + Z.of_nat len <= 2 ^ 31 ->
  exists inv',
    fill_access (seqZ a (Z.of_nat len)) inv = Some inv' /\
    inv_id inv' = inv_id inv /\
    length (slots inv') = length (slots inv) /\
    forall j : nat,
      slots inv' !! j =
      if decide (a - 1 <= Z.of_nat j < a - 1 + Z.of_nat len)
      then Some {| item := Z.of_nat j + 1; count := 1 |}
      else slots inv !! j.
Proof.
  induction len as [| len IH]; intros a inv Ha Hlen Hint.
  - exists inv. simpl. repeat split; try reflexivity.
    intros j. case_decide; [lia | reflexivity].
  - rewrite seqZ_cons by lia. simpl fill_access.
    replace (Z.pred (Z.of_nat (S len))) with (Z.of_nat len) by lia.
    unfold setSlot, int_sub.
    rewrite wrap_int_small, wrap_size_t_small by lia.
    destruct (slots inv !! Z.to_nat (a - 1)) as [old |] eqn:Hold.
    2: { apply lookup_ge_None in Hold. lia. }
    simpl.
    set (inv1 := {| inv_id := inv_id inv;
                    slots := <[Z.to_nat (a - 1) :=
                                 ItemStack_set old {| item := a; count := 1 |}]>
                               (slots inv) |}).
    destruct (IH (Z.succ a) inv1) as (inv' & Hfill & Hid & Hl & Hslots).
    + lia.
    + simpl. rewrite length_insert. lia.
    + lia.
    + exists inv'. split; [exact Hfill |]. split; [exact Hid |].
      split; [rewrite Hl; simpl; apply length_insert |].
      intros j. rewrite Hslots. simpl.
      repeat case_decide; try lia; try reflexivity.
      * assert (j = Z.to_nat (a - 1)) as -> by lia.
        rewrite list_lookup_insert_eq by (apply lookup_lt_Some in Hold; exact Hold).
        unfold ItemStack_set. f_equal. f_equal. lia.
      * apply list_lookup_insert_ne. lia.
Qed.

(** C7. With [itemsCount] item definitions, a count that fits an [int],
    [createContentAccess] returns a view bound to an inventory of its own
    that has [itemsCount] slots, where slot [id - 1] holds the stack
    [(id, 1)] for every id from 1 to [itemsCount - 1] and the one slot left
    is empty; the view has one grid, of 8 columns and [itemsCount - 1]
    slots. *)
Theorem createContentAccess_enumerates_items (w : World) :
  let itemsCount := countItemDefs w in
  itemsCount < 2 ^ 31 ->
  exists view accessInventory grid,
    createContentAccess w = Some view /\
    bound view = Some (OwnInventory accessInventory) /\
    inv_id accessInventory = 0 /\
    Z.of_nat (length (slots accessInventory)) = itemsCount /\
    (forall id, 1 <= id <= itemsCount - 1 ->
       getSlot accessInventory (id - 1) = Some {| item := id; count := 1 |}) /\
    (1 <= itemsCount ->
       getSlot accessInventory (itemsCount - 1) = Some ItemStack_empty) /\
    origin view = FromBuilder [grid] /\
    cols grid = 8 /\ slots_count grid = itemsCount - 1.
Proof.
  cbv zeta. unfold createContentAccess, countItemDefs.
  set (n := length (itemDefs w)). intros Hn.
  rewrite wrap_int_small, wrap_size_t_small by lia.
  assert (Hseq : seqZ 1 (Z.of_nat n - 1) = seqZ 1 (Z.of_nat (Nat.pred n))).
  { destruct n as [| k]; [reflexivity |]. f_equal. lia. }
  rewrite Hseq.
  destruct (fill_access_seq (Nat.pred n) 1 (Inventory_new 0 (Z.of_nat n)))
    as (inv' & Hfill & Hid & Hl & Hslots).
  - lia.
  - simpl. rewrite length_replicate. lia.
  - lia.
  - rewrite Hfill. simpl in Hl. rewrite length_replicate in Hl. simpl.
    eexists. exists inv'. eexists. split; [reflexivity |]. simpl.
    split; [reflexivity |]. split; [exact Hid |]. split; [lia |].
    split; [| split; [| split; [reflexivity |]]].
    + intros id Hrange. unfold getSlot.
      rewrite wrap_size_t_small, Hslots by lia.
      case_decide; [| lia]. f_equal. f_equal. lia.
    + intros Hone. unfold getSlot.
      rewrite wrap_size_t_small, Hslots by lia.
      case_decide; [lia |]. simpl.
      apply lookup_replicate. split; [reflexivity | lia].
    + split; [reflexivity |]. unfold int_sub. apply wrap_int_small. lia.
Qed.

Lemma createContentAccess_enumerates_items_witness :
  exists view accessInventory,
    createContentAccess sample_world = Some view /\
    bound view = Some (OwnInventory accessInventory) /\
    slots accessInventory =
      [ {| item := 1; count := 1 |}; {| item := 2; count := 1 |};
        ItemStack_empty ].
Proof.
  destruct (createContentAccess_enumerates_items sample_world)
    as (view & inv & grid & Hview & Hbound & _).
  - vm_compute. reflexivity.
  - exists view, inv. split; [exact Hview |]. split; [exact Hbound |].
    vm_compute in Hview. injection Hview as <-.
    injection Hbound as <-. reflexivity.
Defined.

End HudProofs.

(** * Further properties of UiDocument *)

Module UiDocExtra.
Import Gui UiDoc HudSpec ExtraSpec UiDocProofs.

Lemma ids_app (l1 l2 : list UINode) : ids (l1 ++ l2) = ids l1 ++ ids l2.
Proof. unfold ids. rewrite List.map_app, List.filter_app. reflexivity. Qed.

Lemma ids_cons (n : UINode) (l : list UINode) :
  ids (n :: l) = if negb (empty (getId n)) then getId n :: ids l else ids l.
Proof. reflexivity. Qed.

Lemma empty_false (s : string) : empty s = false <-> s <> "".
Proof.
  rewrite <- empty_spec. destruct (empty s); split; congruence.
Qed.

Lemma in_ids (l : list UINode) (i : string) :
  In i (ids l) <-> empty i = false /\ exists n, In n l /\ getId n = i.
Proof.
  unfold ids. rewrite filter_In, in_map_iff, negb_true_iff.
  split.
  - intros [(n & Hn & Hin) He]. split; [exact He | eauto].
  - intros [He (n & Hin & Hn)]. split; [eauto | exact He].
Qed.

Lemma ids_length (l : list UINode) : (length (ids l) <= length l)%nat.
Proof.
  unfold ids. rewrite <- (List.length_map getId l). apply List.filter_length_le.
Qed.

(** A key that is no listed id keeps its entry. *)
Lemma fold_record_not_in (l : list UINode) (k : string) :
  ~ In k (ids l) ->
  forall m : uinodes_map, fold_left record l m !! k = m !! k.
Proof.
  induction l as [| a l IH]; intros Hk m; simpl; [reflexivity |].
  rewrite ids_cons in Hk. unfold record at 2.
  destruct (negb (empty (getId a))).
  - rewrite IH by (intros H; apply Hk; right; exact H).
    apply lookup_insert_ne. intros E. apply Hk. left. exact E.
  - apply IH, Hk.
Qed.

(** A listed id has an entry. *)
Lemma fold_record_in (l : list UINode) (k : string) (m : uinodes_map) :
  In k (ids l) -> is_Some (fold_left record l m !! k).
Proof.
  intros Hin. apply in_ids in Hin as [He Hex].
  destruct (fold_record_some l k m) as (n & _ & _ & Hlk);
    [apply empty_false; exact He | exact Hex | eauto].
Qed.

(** A fold of [record] over any map is the fold over the empty map, laid over
    that map. *)
Lemma fold_record_union (l : list UINode) (m : uinodes_map) :
  fold_left record l m = fold_left record l ∅ ∪ m.
Proof.
  induction l as [| a l IH] using rev_ind; simpl.
  - symmetry. apply (left_id_L ∅ (∪)).
  - rewrite !fold_left_app. simpl. rewrite IH. unfold record.
    destruct (negb (empty (getId a))); [| reflexivity].
    apply insert_union_l.
Qed.

Lemma reachable_trans (a b c : UINode) :
  reachable a b -> reachable b c -> reachable a c.
Proof.
  induction 1 as [n | ptr id iv nodes sub n Hin _ IH]; intros Hbc;
    [exact Hbc |].
  eapply reach_child; [exact Hin | apply IH, Hbc].
Qed.

(** The keys of a fold of [record] from the empty map. *)
Lemma fold_record_dom (l : list UINode) :
  dom (fold_left record l (∅ : uinodes_map)) = list_to_set (ids l).
Proof.
  apply set_eq. intros k.
  rewrite elem_of_dom, elem_of_list_to_set, list_elem_of_In. split.
  - intros [v Hv].
    destruct (in_dec String.string_dec k (ids l)) as [Hin | Hno];
      [exact Hin |].
    rewrite fold_record_not_in, lookup_empty in Hv by exact Hno.
    discriminate.
  - apply fold_record_in.
Qed.

Lemma fold_record_size (l : list UINode) (m : uinodes_map) :
  (size (fold_left record l m) <= size m + length (ids l))%nat.
Proof.
  induction l as [| a l IH] using rev_ind; simpl; [lia |].
  rewrite fold_left_app, ids_app, length_app.
  change (ids [a]) with (if negb (empty (getId a)) then [getId a] else []).
  simpl fold_left. unfold record at 1.
  destruct (negb (empty (getId a))); simpl length; [| lia].
  rewrite map_size_insert.
  destruct (fold_left record l m !! getId a); simpl; lia.
Qed.

(** X1. The keys of a document's map are exactly the non-empty ids of the
    nodes of its tree. *)
Theorem UiDocument_keys (id : string) (script : uidocscript) (root : UINode)
    (env : Z) :
  dom (getMap (UiDocument_new id script root env))
  = list_to_set (ids (preorder root)).
Proof.
  unfold getMap. simpl. rewrite collect_preorder. apply fold_record_dom.
Qed.

(** X2. The map has at most as many entries as the tree has nodes with a
    non-empty id, hence at most as many as it has nodes; it has exactly that
    many when these ids are pairwise distinct. *)
Theorem UiDocument_size (id : string) (script : uidocscript) (root : UINode)
    (env : Z) :
  let m := getMap (UiDocument_new id script root env) in
  (size m <= length (ids (preorder root)) <= length (preorder root))%nat /\
  (NoDup (ids (preorder root)) -> size m = length (ids (preorder root))).
Proof.
  cbv zeta. unfold getMap. simpl. rewrite collect_preorder.
  split; [split |].
  - pose proof (fold_record_size (preorder root) ∅) as H.
    rewrite map_size_empty in H. exact H.
  - apply ids_length.
  - intros Hnd.
    rewrite <- (size_dom (D := gset string)), fold_record_dom.
    apply size_list_to_set. exact Hnd.
Qed.

(** X3. With pairwise distinct non-empty ids, looking up the id of any node
    of the tree gives back that very node. *)
Theorem UiDocument_lookup_own_id (id : string) (script : uidocscript)
    (root : UINode) (env : Z) (node : UINode) :
  NoDup (ids (preorder root)) ->
  reachable root node ->
  empty (getId node) = false ->
  getMap (UiDocument_new id script root env) !! getId node = Some node.
Proof.
  intros Hnd Hreach He. unfold getMap. simpl. rewrite collect_preorder.
  apply reachable_preorder in Hreach.
  apply in_split in Hreach as (l1 & l2 & Hsplit). rewrite Hsplit.
  apply fold_record_last; [apply empty_false; exact He |].
  intros n' Hn' Hid.
  rewrite Hsplit, ids_app, ids_cons, He in Hnd. simpl in Hnd.
  apply NoDup_app in Hnd as (_ & _ & Hnd).
  apply NoDup_cons in Hnd as [Hnotin _].
  apply Hnotin. apply list_elem_of_In, in_ids.
  split; [exact He | eauto].
Qed.

Lemma UiDocument_lookup_own_id_witness :
  getMap inventory_layout !! "slot-1" = Some (Leaf 12 "slot-1").
Proof.
  apply (UiDocument_lookup_own_id "core" _
           (Container 10 "inventory" true [Leaf 11 "slot-0"; Leaf 12 "slot-1"])
           1 (Leaf 12 "slot-1")).
  - apply (bool_decide_unpack _). vm_compute. exact I.
  - eapply reach_child; [right; left; reflexivity | constructor].
  - reflexivity.
Defined.

(** X4. [collect] on a map that already has entries: the index of the tree
    is laid over the map, so an old entry survives exactly when its key is
    no id of the tree. *)
Theorem collect_over_map (m : uinodes_map) (node : UINode) :
  collect m node = collect ∅ node ∪ m.
Proof. rewrite !collect_preorder. apply fold_record_union. Qed.

(** X5. The ids indexed for a subtree are indexed for the whole tree. *)
Theorem UiDocument_subtree_keys (id : string) (script : uidocscript)
    (root sub : UINode) (env : Z) :
  reachable root sub ->
  dom (collect ∅ sub) ⊆ dom (getMap (UiDocument_new id script root env)).
Proof.
  intros Hreach. unfold getMap. simpl.
  rewrite !collect_preorder, !fold_record_dom.
  intros k. rewrite !elem_of_list_to_set, !list_elem_of_In, !in_ids.
  intros [He (n & Hn & Hid)]. split; [exact He |]. exists n.
  split; [| exact Hid].
  apply reachable_preorder. apply (reachable_trans _ sub); [exact Hreach |].
  apply reachable_preorder. exact Hn.
Qed.

Lemma UiDocument_subtree_keys_witness :
  dom (collect ∅ (Container 2 "a" true [Leaf 3 "b"; Leaf 4 ""]))
  ⊆ dom (getMap (UiDocument_new "doc"
                   {| environment := 0; onopen := false; onclose := false |}
                   sample_tree 0)).
Proof.
  apply UiDocument_subtree_keys.
  eapply reach_child; [right; left; reflexivity | constructor].
Defined.

End UiDocExtra.

(** * Further properties of HudRenderer *)

Module HudExtra.
Import Gui UiDoc Hud HudSpec HudLife ExtraSpec HudProofs.

(** ** Traces *)

Lemma total_app (f : Call -> Z) (a b : list Call) :
  total f (a ++ b) = total f a + total f b.
Proof.
  unfold total. induction a as [| c a IH]; simpl; [reflexivity |].
  rewrite IH. lia.
Qed.

Lemma phase_refl (s : State) : phase s s.
Proof.
  split; auto. exists []. rewrite app_nil_r. split; [reflexivity |].
  split; [simpl; lia |]. intros k. simpl. destruct (Nat.eqb k 5); lia.
Qed.

Lemma phase_trans (s1 s2 s3 : State) : phase s1 s2 -> phase s2 s3 -> phase s1 s3.
Proof.
  intros [I1 F1 P1 L1 C1 [A1 B1] G1 (d1 & T1 & S1 & W1) M1]
         [I2 F2 P2 L2 C2 [A2 B2] G2 (d2 & T2 & S2 & W2) M2].
  split; try congruence; auto.
  - split; congruence.
  - destruct G2 as [G2 | G2]; [| right; exact G2].
    rewrite G2. exact G1.
  - exists (d1 ++ d2). rewrite T2, T1, app_assoc. split; [reflexivity |].
    rewrite total_app, S1, S2. split; [lia |].
    intros k. rewrite total_app, W1, W2. destruct (Nat.eqb k 5); lia.
Qed.

(** A step that writes only members and shared objects that [phase] does not
    look at. *)
Lemma phase_same (s s' : State) :
  s'.2 = s.2 \/ (exists m, s'.2 = with_menu m s.2) ->
  inventoryOpen s'.1 = inventoryOpen s.1 ->
  inventoryView s'.1 = inventoryView s.1 ->
  inventoryDocument s'.1 = inventoryDocument s.1 ->
  contentAccess s'.1 = contentAccess s.1 ->
  hotbarView s'.1 = hotbarView s.1 ->
  phase s s'.
Proof.
  intros Hw Ho Hv Hd Hc Hh.
  assert (E : itemDefs s'.2 = itemDefs s.2 /\ focusCaught s'.2 = focusCaught s.2
              /\ player s'.2 = player s.2 /\ layouts s'.2 = layouts s.2
              /\ cursor_locked s'.2 = cursor_locked s.2
              /\ grabbedItem s'.2 = grabbedItem s.2 /\ calls s'.2 = calls s.2).
  { destruct Hw as [-> | [m ->]]; simpl; auto 10. }
  destruct E as (E1 & E2 & E3 & E4 & E5 & E6 & E7).
  split; auto.
  - exists []. rewrite app_nil_r, Ho. split; [exact E7 |].
    split; [simpl; lia |]. intros k. simpl. destruct (Nat.eqb k 5); lia.
  - unfold members_agree. rewrite Hv, Hd, Ho. auto.
Qed.

Lemma closeInventory_phase (s s' : State) :
  closeInventory s = Some s' -> inventoryOpen s.1 = true -> phase s s'.
Proof.
  intros H Ho. apply closeInventory_Some in H as (view & Hview & ->).
  split; simpl; auto.
  - eexists. split; [rewrite <- app_assoc; reflexivity |]. rewrite Ho.
    split; [reflexivity |]. intros k.
    destruct (Nat.eqb_spec k 5) as [-> | Hk]; [reflexivity |].
    simpl. destruct k as [| [| [| [| [| [| k]]]]]]; try reflexivity.
    congruence.
  - intros _. reflexivity.
Qed.

(** The state [openInventory] returns, in full. *)
Lemma openInventory_result (s s' : State) :
  openInventory s = Some s' <->
  exists doc node,
    getLayout "core:inventory" s.2 = Some doc /\
    as_inventory_view (getRoot doc) = Some node /\
    s' = (with_inventory true (Some (layout_view node)) (Some doc) s.1,
          call (gui_add GrabbedItemView)
            (call (gui_add (InventoryViewNode (layout_view node)))
               (call (on_ui_open doc PlayerInventory)
                  (call (gui_remove GrabbedItemView) s.2)))).
Proof.
  destruct s as [h w]. unfold openInventory, getLayout. simpl. split.
  - destruct (layouts w !! "core:inventory") as [doc |] eqn:Hdoc; simpl;
      [| discriminate].
    destruct (as_inventory_view (getRoot doc)) as [node |] eqn:Hnode; simpl;
      [| discriminate].
    intros [= <-]. exists doc, node. repeat split; auto.
  - intros (doc & node & -> & Hnode & ->). simpl. rewrite Hnode. reflexivity.
Qed.

Lemma openInventory_phase (s s' : State) :
  openInventory s = Some s' -> inventoryOpen s.1 = false -> phase s s'.
Proof.
  intros H Ho. apply openInventory_result in H as (doc & node & _ & Hnode & ->).
  split; simpl; auto.
  - eexists. split; [rewrite <- !app_assoc; reflexivity |]. rewrite Ho.
    split; [reflexivity |]. intros k.
    destruct k as [| [| [| [| [| [| k]]]]]]; reflexivity.
  - intros _. unfold members_agree. simpl. split; [reflexivity |].
    exists node. auto.
Qed.

(** ** The blocks of [update] as phases *)

Lemma update_visibility_phase (vis : bool) (s : State) :
  phase s (update_visibility vis s).
Proof.
  destruct s as [h w]. apply phase_same; simpl; eauto.
Qed.

Lemma update_hidden_phase (vis : bool) (s s' : State) :
  update_hidden vis s = Some s' -> phase s s'.
Proof.
  unfold update_hidden.
  destruct (negb vis && inventoryOpen s.1) eqn:E.
  - apply andb_true_iff in E as [_ E]. intros H.
    apply closeInventory_phase; assumption.
  - intros [= <-]. apply phase_refl.
Qed.

Lemma update_menu_closed_phase (s : State) : phase s (update_menu_closed s).
Proof.
  destruct s as [h w]. unfold update_menu_closed.
  destruct (pause h && Menu_current_panel_null (menu w));
    [apply phase_same; simpl; auto | apply phase_refl].
Qed.

Lemma update_escape_phase (ev : Events) (s s' : State) :
  update_escape ev s = Some s' -> phase s s'.
Proof.
  destruct s as [h w]. unfold update_escape.
  destruct (jpressed ev keycode.ESCAPE && negb (focusCaught w));
    [| intros [= <-]; apply phase_refl].
  destruct (pause h); [intros [= <-]; apply phase_same; simpl; eauto |].
  destruct (inventoryOpen h) eqn:Ho.
  - intros H. apply closeInventory_phase; assumption.
  - intros [= <-]. apply phase_same; simpl; eauto.
Qed.

Lemma update_inventory_key_phase (ev : Events) (vis : bool) (s s' : State) :
  update_inventory_key ev vis s = Some s' -> phase s s'.
Proof.
  unfold update_inventory_key.
  destruct (vis && jactive_hud_inventory ev); [| intros [= <-]; apply phase_refl].
  destruct (negb (pause s.1)); [| intros [= <-]; apply phase_refl].
  destruct (inventoryOpen s.1) eqn:Ho; intros H.
  - apply closeInventory_phase; assumption.
  - apply openInventory_phase; assumption.
Qed.

(** [update] is a phase followed by the last blocks. *)
Lemma update_phase (ev : Events) (vis : bool) (s s' : State) :
  update ev vis s = Some s' ->
  exists s3, phase s s3 /\
             s' = update_slot ev (update_panels vis (update_cursor s3)).
Proof.
  intros H. apply update_Some in H as (s1 & s2 & s3 & H1 & H2 & H3 & ->).
  exists s3. split; [| reflexivity].
  apply (phase_trans _ (update_visibility vis s));
    [apply update_visibility_phase |].
  apply (phase_trans _ s1); [apply (update_hidden_phase _ _ _ H1) |].
  apply (phase_trans _ (update_menu_closed s1));
    [apply update_menu_closed_phase |].
  apply (phase_trans _ s2); [apply (update_escape_phase _ _ _ H2) |].
  apply (update_inventory_key_phase _ _ _ _ H3).
Qed.

Lemma update_scroll_frame (ev : Events) (h : HudRenderer) (p : Player) :
  debug (update_scroll ev h p) = debug p /\
  inventory (update_scroll ev h p) = inventory p.
Proof.
  unfold update_scroll.
  destruct (negb (pause h) && negb (inventoryOpen h) && negb (scroll ev =? 0));
    auto.
Qed.

(** What the last blocks, lines 312-338, leave alone and what they set. *)
Lemma update_tail_world (ev : Events) (vis : bool) (s : State) :
  let s' := update_slot ev (update_panels vis (update_cursor s)) in
  (itemDefs s'.2 = itemDefs s.2 /\ focusCaught s'.2 = focusCaught s.2 /\
   layouts s'.2 = layouts s.2 /\ grabbedItem s'.2 = grabbedItem s.2 /\
   calls s'.2 = calls s.2 /\ menu s'.2 = menu s.2) /\
  (pause s'.1 = pause s.1 /\ inventoryOpen s'.1 = inventoryOpen s.1 /\
   inventoryView s'.1 = inventoryView s.1 /\
   inventoryDocument s'.1 = inventoryDocument s.1 /\
   contentAccess s'.1 = contentAccess s.1 /\
   hotbarView s'.1 = hotbarView s.1) /\
  darkOverlay_visible s'.1 = pause s.1 /\
  contentAccessPanel_visible s'.1 = inventoryOpen s.1.
Proof.
  destruct s as [h w]. unfold update_cursor. simpl.
  destruct (Bool.eqb (pause h || inventoryOpen h) (cursor_locked w));
    simpl; auto 20.
Qed.

(** ** Opening and closing *)

(** X7. [openInventory] fails exactly when the layout ["core:inventory"] is
    not loaded or its root is no inventory view. When it returns, the flag
    is set, the document is that layout, the view is the one made of its
    root and bound to the player's inventory, and the trace has grown by
    four calls: the grabbed item view leaves the GUI, the script is told,
    the inventory view and then the grabbed item view enter the GUI. *)
Theorem openInventory_outcome (s : State) :
  (openInventory s = None <-> ~ layout_present s.2) /\
  (forall s', openInventory s = Some s' ->
     exists doc node,
       getLayout "core:inventory" s.2 = Some doc /\
       as_inventory_view (getRoot doc) = Some node /\
       inventoryOpen s'.1 = true /\
       inventoryDocument s'.1 = Some doc /\
       inventoryView s'.1 = Some (layout_view node) /\
       pause s'.1 = pause s.1 /\
       player s'.2 = player s.2 /\
       grabbedItem s'.2 = grabbedItem s.2 /\
       calls s'.2 =
         calls s.2 ++ [ gui_remove GrabbedItemView;
                        on_ui_open doc PlayerInventory;
                        gui_add (InventoryViewNode (layout_view node));
                        gui_add GrabbedItemView ]).
Proof.
  split.
  - split.
    + intros Hnone (doc & node & Hdoc & Hnode).
      destruct (openInventory_returns s) as [s' Hs'];
        [exists doc, node; auto | congruence].
    + intros Hno. destruct (openInventory s) as [s' |] eqn:E; [| reflexivity].
      exfalso. apply Hno.
      apply openInventory_result in E as (doc & node & Hdoc & Hnode & _).
      exists doc, node. auto.
  - intros s' H.
    apply openInventory_result in H as (doc & node & Hdoc & Hnode & ->).
    exists doc, node. simpl. rewrite <- !app_assoc. auto 10.
Qed.

(** X8. [closeInventory] fails exactly when the view pointer is null. When
    it returns, it has told the script, with the document and the inventory
    the view is bound to, and then taken the view out of the GUI; pause, the
    menu, the cursor lock and the chosen slot are as before. *)
Theorem closeInventory_outcome (s : State) :
  (closeInventory s = None <-> inventoryView s.1 = None) /\
  (forall s', closeInventory s = Some s' ->
     exists view,
       inventoryView s.1 = Some view /\
       calls s'.2 =
         calls s.2 ++ [ on_ui_close (inventoryDocument s.1) (bound view);
                        gui_remove (InventoryViewNode view) ] /\
       pause s'.1 = pause s.1 /\ menu s'.2 = menu s.2 /\
       cursor_locked s'.2 = cursor_locked s.2 /\
       player s'.2 = player s.2).
Proof.
  split.
  - destruct s as [h w]. unfold closeInventory. simpl.
    destruct (inventoryView h); simpl; split; intros H;
      (discriminate H || reflexivity).
  - intros s' H. apply closeInventory_Some in H as (view & Hview & ->).
    exists view. simpl. rewrite <- app_assoc. auto 10.
Qed.

(** X9. Opening and then closing: when [openInventory] returns,
    [closeInventory] returns on its result; the flag and both pointers are
    cleared, the grabbed stack is empty, the player is untouched, and the
    script has seen [on_ui_open] and then [on_ui_close] with the same
    document and the player's inventory, the view entering and leaving the
    GUI around them. *)
Theorem open_then_close (s s1 : State) :
  openInventory s = Some s1 ->
  exists s2 doc node,
    closeInventory s1 = Some s2 /\
    getLayout "core:inventory" s.2 = Some doc /\
    as_inventory_view (getRoot doc) = Some node /\
    s2.1 = with_inventory false None None s.1 /\
    player s2.2 = player s.2 /\
    grabbedItem s2.2 = ItemStack_empty /\
    calls s2.2 =
      calls s.2 ++ [ gui_remove GrabbedItemView;
                     on_ui_open doc PlayerInventory;
                     gui_add (InventoryViewNode (layout_view node));
                     gui_add GrabbedItemView;
                     on_ui_close (Some doc) (Some PlayerInventory);
                     gui_remove (InventoryViewNode (layout_view node)) ].
Proof.
  intros H. apply openInventory_result in H as (doc & node & Hdoc & Hnode & ->).
  eexists. exists doc, node. split; [reflexivity |]. simpl.
  rewrite <- !app_assoc. destruct s as [h w]. simpl. auto 10.
Qed.

Lemma open_then_close_witness :
  exists s1 s2,
    openInventory (sample_hud, sample_world) = Some s1 /\
    closeInventory s1 = Some s2 /\
    s2.1 = sample_hud /\
    grabbedItem s2.2 = ItemStack_empty /\
    length (calls s2.2) = 6%nat.
Proof.
  eexists. eexists. split; [vm_compute; reflexivity |].
  match goal with
  | |- closeInventory ?s1 = _ /\ _ =>
      destruct (open_then_close (sample_hud, sample_world) s1)
        as (s2 & doc & node & Hc & _ & _ & Hh & _ & Hg & Ht);
        [vm_compute; reflexivity |]
  end.
  vm_compute in Hc. injection Hc as <-.
  split; [vm_compute; reflexivity |].
  split; [reflexivity |]. split; [reflexivity | reflexivity].
Defined.

(** ** The flags, the menu and the grabbed stack through [update] *)

(** What each fallible block does to the menu and to the grabbed stack. *)
Lemma closeInventory_world (s s' : State) :
  closeInventory s = Some s' ->
  menu s'.2 = menu s.2 /\ grabbedItem s'.2 = ItemStack_empty.
Proof.
  intros H. apply closeInventory_Some in H as (view & _ & ->). auto.
Qed.

Lemma openInventory_world (s s' : State) :
  openInventory s = Some s' ->
  menu s'.2 = menu s.2 /\ grabbedItem s'.2 = grabbedItem s.2.
Proof.
  intros H. apply openInventory_result in H as (doc & node & _ & _ & ->). auto.
Qed.

Lemma update_hidden_world (vis : bool) (s s' : State) :
  update_hidden vis s = Some s' ->
  menu s'.2 = menu s.2 /\
  grabbedItem s'.2 =
    if negb vis && inventoryOpen s.1 then ItemStack_empty else grabbedItem s.2.
Proof.
  unfold update_hidden. destruct (negb vis && inventoryOpen s.1).
  - apply closeInventory_world.
  - intros [= <-]. auto.
Qed.

Lemma update_escape_world (ev : Events) (s s' : State) :
  update_escape ev s = Some s' ->
  menu s'.2 =
    (if escape_acts ev s then
       if pause s.1 then Menu_reset (menu s.2)
       else if inventoryOpen s.1 then menu s.2
       else Menu_setPage "pause" (menu s.2)
     else menu s.2) /\
  grabbedItem s'.2 =
    if escape_acts ev s && negb (pause s.1) && inventoryOpen s.1
    then ItemStack_empty else grabbedItem s.2.
Proof.
  destruct s as [h w]. unfold update_escape, escape_acts. cbn [fst snd].
  destruct (jpressed ev keycode.ESCAPE && negb (focusCaught w));
    [| intros [= <-]; auto].
  destruct (pause h); [intros [= <-]; auto |].
  destruct (inventoryOpen h); [| intros [= <-]; auto].
  apply closeInventory_world.
Qed.

Lemma update_inventory_key_world (ev : Events) (vis : bool) (s s' : State) :
  update_inventory_key ev vis s = Some s' ->
  menu s'.2 = menu s.2 /\
  grabbedItem s'.2 =
    if vis && jactive_hud_inventory ev && negb (pause s.1) && inventoryOpen s.1
    then ItemStack_empty else grabbedItem s.2.
Proof.
  unfold update_inventory_key.
  destruct (vis && jactive_hud_inventory ev); [| intros [= <-]; auto].
  destruct (pause s.1); simpl; [intros [= <-]; auto |].
  destruct (inventoryOpen s.1).
  - apply closeInventory_world.
  - apply openInventory_world.
Qed.

(** The whole effect of [update] on the flags, the menu and the grabbed
    stack, from the state at entry. *)
Lemma update_law (ev : Events) (vis : bool) (s s' : State) :
  update ev vis s = Some s' ->
  pause s'.1 = pause_next ev vis s /\
  inventoryOpen s'.1 = open_next ev vis s /\
  menu s'.2 =
    (let m := Menu_setVisible (pause s.1) (menu s.2) in
     if escape_acts ev s then
       if pause_kept s then Menu_reset m
       else if open_kept vis s then m
       else Menu_setPage "pause" m
     else m) /\
  grabbedItem s'.2 =
    if closes_during ev vis s then ItemStack_empty else grabbedItem s.2.
Proof.
  intros H. apply update_Some in H as (s1 & s2 & s3 & H1 & H2 & H3 & ->).
  destruct (update_tail_world ev vis s3)
    as ((_ & _ & _ & -> & _ & ->) & (-> & -> & _) & _).
  pose proof (update_hidden_block _ _ _ H1) as [_ _ P1 I1 _ _ _ _].
  pose proof (update_hidden_phase _ _ _ H1) as [_ F1 _ _ _ _ _ _ _].
  apply update_hidden_world in H1 as [M1 G1].
  pose proof (update_menu_closed_block s1) as [_ _ P1' I1' _ _ _ _].
  pose proof (update_escape_block _ _ _ H2) as [_ _ P2 I2 _ _ _ _].
  apply update_escape_world in H2 as [M2 G2].
  pose proof (update_inventory_key_block _ _ _ _ H3) as [_ _ P3 I3 _ _ _ _].
  apply update_inventory_key_world in H3 as [M3 G3].
  assert (W1 : (update_menu_closed s1).2 = s1.2).
  { destruct s1 as [h1 w1]. unfold update_menu_closed.
    destruct (pause h1 && Menu_current_panel_null (menu w1)); reflexivity. }
  unfold escape_acts in *. rewrite W1 in *.
  rewrite P1', I1' in *.
  destruct s as [h w]. simpl in P1, I1, F1, M1, G1.
  rewrite P1, I1, F1, M1 in *.
  unfold closes_during, open_next, key_acts, open_escaped, pause_next,
    escape_acts, pause_kept, open_kept. cbn [fst snd].
  assert (N : Menu_current_panel_null (Menu_setVisible (pause h) (menu w))
              = Menu_current_panel_null (menu w)) by reflexivity.
  rewrite N in *.
  rewrite P3, I3, M3, G3, P2, I2, M2, G2, G1.
  destruct (pause h), (inventoryOpen h), vis,
    (Menu_current_panel_null (menu w)),
    (jpressed ev keycode.ESCAPE && negb (focusCaught w)),
    (jactive_hud_inventory ev); simpl; auto.
Qed.

(** The ESCAPE block on the state it finds, when it returns. *)
Lemma update_escape_cases (ev : Events) (sb sa : State) :
  update_escape ev sb = Some sa ->
  if escape_acts ev sb then
    if pause sb.1 then
      resumes sb sa /\ ~ closes sb sa /\ ~ pauses sb sa
    else if inventoryOpen sb.1 then
      closes sb sa /\ ~ resumes sb sa /\ ~ pauses sb sa
    else
      pauses sb sa /\ ~ resumes sb sa /\ ~ closes sb sa
  else
    sa = sb /\ ~ resumes sb sa /\ ~ closes sb sa /\ ~ pauses sb sa.
Proof.
  destruct sb as [h w]. unfold update_escape, escape_acts. cbn [fst snd].
  destruct (jpressed ev keycode.ESCAPE && negb (focusCaught w)).
  - destruct (pause h) eqn:Hp.
    + intros [= <-]. unfold resumes, closes, pauses. simpl.
      repeat split; auto; intros H; decompose [and] H; congruence.
    + destruct (inventoryOpen h) eqn:Hi.
      * intros Hs'.
        pose proof (closeInventory_block _ _ Hs') as [_ _ P I _ _ _ _].
        apply closeInventory_Some in Hs' as Hv. destruct Hv as (view & _ & E).
        unfold resumes, closes, pauses. cbn [fst snd] in *.
        rewrite P, I, Hp, Hi.
        repeat split; auto; try (rewrite E; reflexivity);
          intros H; decompose [and] H; congruence.
      * intros [= <-]. unfold resumes, closes, pauses. simpl.
        repeat split; auto; intros H; decompose [and] H; congruence.
  - intros [= <-]. unfold resumes, closes, pauses. simpl.
    repeat split; auto; intros H; decompose [and] H;
      destruct (pause h), (inventoryOpen h); congruence.
Qed.

(** C2, as the code has it. Every [update] that returns goes through a
    state [sb], which its first lines (283-291) leave, and a state [sa],
    which the ESCAPE block (292-302) makes of it. In [sb] the pause flag is
    the one at entry only while the menu has a current page, and the
    inventory is open only if it was on a visible HUD. From [sb] to [sa],
    when ESCAPE is pressed and the focus is not caught, exactly one of the
    three transitions takes place: [resumes] when [sb] is paused, else
    [closes] when its inventory is open, else [pauses]; otherwise [sa] is
    [sb] and none of them takes place. The call ends with the pause flag and
    the menu of [sa], and with its inventory flipped if the inventory key
    acts. *)
Theorem update_escape_transition (ev : Events) (vis : bool) (s s' : State) :
  update ev vis s = Some s' ->
  exists sb sa : State,
    (pause sb.1 = pause_kept s /\
     inventoryOpen sb.1 = open_kept vis s /\
     menu sb.2 = Menu_setVisible (pause s.1) (menu s.2) /\
     focusCaught sb.2 = focusCaught s.2) /\
    update_escape ev sb = Some sa /\
    (pause s'.1 = pause sa.1 /\
     menu s'.2 = menu sa.2 /\
     inventoryOpen s'.1 =
       if vis && jactive_hud_inventory ev && negb (pause sa.1)
       then negb (inventoryOpen sa.1) else inventoryOpen sa.1) /\
    if escape_acts ev s then
      if pause_kept s then
        resumes sb sa /\ ~ closes sb sa /\ ~ pauses sb sa
      else if open_kept vis s then
        closes sb sa /\ ~ resumes sb sa /\ ~ pauses sb sa
      else
        pauses sb sa /\ ~ resumes sb sa /\ ~ closes sb sa
    else
      sa = sb /\ ~ resumes sb sa /\ ~ closes sb sa /\ ~ pauses sb sa.
Proof.
  intros H. apply update_Some in H as (s1 & s2 & s3 & H1 & H2 & H3 & ->).
  exists (update_menu_closed s1), s2.
  destruct (update_tail_world ev vis s3)
    as ((_ & _ & _ & _ & _ & ->) & (-> & -> & _) & _).
  pose proof (update_hidden_block _ _ _ H1) as [_ _ P1 I1 _ _ _ _].
  pose proof (update_hidden_phase _ _ _ H1) as [_ F1 _ _ _ _ _ _ _].
  pose proof (update_hidden_world _ _ _ H1) as [M1 _].
  pose proof (update_menu_closed_block s1) as [_ _ P1' I1' _ _ _ _].
  pose proof (update_inventory_key_block _ _ _ _ H3) as [_ _ P3 I3 _ _ _ _].
  pose proof (update_inventory_key_world _ _ _ _ H3) as [M3 _].
  assert (W1 : (update_menu_closed s1).2 = s1.2).
  { destruct s1 as [h1 w1]. unfold update_menu_closed.
    destruct (pause h1 && Menu_current_panel_null (menu w1)); reflexivity. }
  assert (Eb : pause (update_menu_closed s1).1 = pause_kept s /\
               inventoryOpen (update_menu_closed s1).1 = open_kept vis s /\
               menu (update_menu_closed s1).2
                 = Menu_setVisible (pause s.1) (menu s.2) /\
               focusCaught (update_menu_closed s1).2 = focusCaught s.2).
  { rewrite P1', I1', W1, P1, I1, M1, F1. destruct s as [h w].
    unfold pause_kept, open_kept. simpl. auto. }
  destruct Eb as (Eb1 & Eb2 & Eb3 & Eb4).
  split; [auto |]. split; [exact H2 |].
  split; [rewrite P3, I3, M3; auto |].
  pose proof (update_escape_cases _ _ _ H2) as Hc.
  unfold escape_acts in *. rewrite Eb4, Eb1, Eb2 in Hc. exact Hc.
Qed.

Lemma update_escape_transition_witness :
  exists s',
    update (key_event keycode.ESCAPE) true sample_open = Some s' /\
    pause s'.1 = false /\ inventoryOpen s'.1 = false.
Proof.
  eexists. split; [vm_compute; reflexivity |].
  match goal with
  | |- pause ?s'.1 = _ /\ _ =>
      destruct (update_escape_transition (key_event keycode.ESCAPE) true
                  sample_open s')
        as (sb & sa & (Pb & Ob & _) & _ & (P & _ & O) & Hc);
        [vm_compute; reflexivity |]
  end.
  change (escape_acts (key_event keycode.ESCAPE) sample_open) with true in Hc.
  change (pause_kept sample_open) with false in Hc.
  change (open_kept true sample_open) with true in Hc.
  cbv iota in Hc. destruct Hc as ((_ & Oa & _ & Pa & _) & _).
  split; [exact (eq_trans P (eq_trans Pa Pb)) | exact (eq_trans O Oa)].
Defined.

(** C2, as it is stated, fails on [update]. With the HUD paused, the menu
    showing no page and ESCAPE pressed, the call ends paused with the page
    ["pause"], not resumed with the menu reset; and with ESCAPE not pressed,
    the inventory key closes the open inventory. *)
Lemma update_escape_counterexample :
  (exists s',
     update (key_event keycode.ESCAPE) true
            (with_pause true sample_hud, sample_world) = Some s' /\
     pause (with_pause true sample_hud) = true /\
     jpressed (key_event keycode.ESCAPE) keycode.ESCAPE = true /\
     focusCaught sample_world = false /\
     pause s'.1 = true /\ page (menu s'.2) = Some "pause") /\
  (exists s',
     update inventory_event true sample_open = Some s' /\
     jpressed inventory_event keycode.ESCAPE = false /\
     inventoryOpen sample_open.1 = true /\
     inventoryOpen s'.1 = false).
Proof.
  split; eexists; (split; [vm_compute; reflexivity |]);
    repeat split; reflexivity.
Qed.

(** X10. The flags at the end of [update], from the state at entry: a
    pause survives the first lines only while the menu shows a page, an open
    inventory only on a visible HUD; ESCAPE, when it acts, resumes from such
    a pause, else closes such an inventory, else pauses; the inventory key,
    on a visible HUD that is not paused by then, flips the inventory. *)
Theorem update_flags (ev : Events) (vis : bool) (s s' : State) :
  update ev vis s = Some s' ->
  pause s'.1 = pause_next ev vis s /\
  inventoryOpen s'.1 = open_next ev vis s.
Proof.
  intros H. apply update_law in H as (Hp & Ho & _). auto.
Qed.

Lemma update_flags_witness :
  exists s',
    update {| jpressed := fun k => k =? keycode.ESCAPE;
              jactive_hud_inventory := true; scroll := 0 |}
           true sample_open = Some s' /\
    pause s'.1 = false /\ inventoryOpen s'.1 = true.
Proof.
  eexists. split; [vm_compute; reflexivity |].
  match goal with
  | |- pause ?s'.1 = _ /\ _ =>
      apply (update_flags
               {| jpressed := fun k => k =? keycode.ESCAPE;
                  jactive_hud_inventory := true; scroll := 0 |}
               true sample_open s')
  end.
  vm_compute. reflexivity.
Defined.

(** X11. An [update] of a hidden HUD leaves the inventory closed and the
    content access panel hidden, whatever the keys. *)
Theorem update_hidden_closes (ev : Events) (s s' : State) :
  update ev false s = Some s' ->
  inventoryOpen s'.1 = false /\ contentAccessPanel_visible s'.1 = false.
Proof.
  intros H. pose proof (update_law _ _ _ _ H) as (_ & Ho & _).
  assert (E : open_next ev false s = false).
  { unfold open_next, key_acts, open_escaped, open_kept. simpl.
    rewrite !andb_false_r. destruct (escape_acts ev s); reflexivity. }
  rewrite E in Ho. split; [exact Ho |].
  apply update_Some in H as (s1 & s2 & s3 & _ & _ & _ & ->).
  destruct (update_tail_world ev false s3) as (_ & (_ & Ho3 & _) & _ & Hc).
  rewrite Hc, <- Ho3. exact Ho.
Qed.

Lemma update_hidden_closes_witness :
  exists s', update inventory_event false sample_open = Some s' /\
             inventoryOpen s'.1 = false /\
             contentAccessPanel_visible s'.1 = false.
Proof.
  eexists. split; [vm_compute; reflexivity |].
  match goal with
  | |- inventoryOpen ?s'.1 = _ /\ _ =>
      apply (update_hidden_closes inventory_event sample_open s')
  end.
  vm_compute. reflexivity.
Defined.

(** X12. At the end of [update] the dark overlay is visible exactly when the
    HUD is paused, and the content access panel exactly when the inventory
    is open. *)
Theorem update_overlays_track_flags (ev : Events) (vis : bool) (s s' : State) :
  update ev vis s = Some s' ->
  darkOverlay_visible s'.1 = pause s'.1 /\
  contentAccessPanel_visible s'.1 = inventoryOpen s'.1.
Proof.
  intros H. apply update_Some in H as (s1 & s2 & s3 & _ & _ & _ & ->).
  destruct (update_tail_world ev vis s3) as (_ & (Hp & Ho & _) & Hd & Hc).
  rewrite Hd, Hc, Hp, Ho. auto.
Qed.

Lemma update_overlays_track_flags_witness :
  exists s', update (key_event keycode.ESCAPE) true (sample_hud, sample_world)
             = Some s' /\
             darkOverlay_visible s'.1 = true /\
             contentAccessPanel_visible s'.1 = false.
Proof.
  eexists. split; [vm_compute; reflexivity |].
  match goal with
  | |- darkOverlay_visible ?s'.1 = _ /\ _ =>
      apply (update_overlays_track_flags (key_event keycode.ESCAPE) true
               (sample_hud, sample_world) s')
  end.
  vm_compute. reflexivity.
Defined.

(** X13. While the menu shows no page, the pause flag at entry does not
    count: the HUD ends the call paused exactly when ESCAPE acts and no
    inventory is open on a visible HUD. *)
Theorem update_pause_needs_page (ev : Events) (vis : bool) (s s' : State) :
  update ev vis s = Some s' ->
  Menu_current_panel_null (menu s.2) = true ->
  pause s'.1 = escape_acts ev s && negb (inventoryOpen s.1 && vis).
Proof.
  intros H Hnull. apply update_law in H as (Hp & _).
  rewrite Hp. unfold pause_next, pause_kept, open_kept. rewrite Hnull.
  rewrite andb_false_r. simpl. destruct (escape_acts ev s); reflexivity.
Qed.

Lemma update_pause_needs_page_witness :
  exists s', update no_events true (with_pause true sample_hud, sample_world)
             = Some s' /\ pause s'.1 = false.
Proof.
  eexists. split; [vm_compute; reflexivity |].
  match goal with
  | |- pause ?s'.1 = _ =>
      apply (update_pause_needs_page no_events true
               (with_pause true sample_hud, sample_world) s')
  end; vm_compute; reflexivity.
Defined.

Lemma update_focus (ev : Events) (vis : bool) (s s' : State) :
  update ev vis s = Some s' -> focusCaught s'.2 = focusCaught s.2.
Proof.
  intros H. apply update_phase in H as (s3 & [_ F _ _ _ _ _ _ _] & ->).
  destruct (update_tail_world ev vis s3) as ((_ & -> & _) & _). exact F.
Qed.

(** X14. ESCAPE twice: from a HUD that is not paused and shows no inventory,
    two calls in which ESCAPE is pressed, the focus not being caught and the
    engine not touching the menu in between, pause with the page ["pause"]
    and then resume with the menu reset. *)
Theorem update_escape_twice (ev1 ev2 : Events) (vis1 vis2 : bool)
    (s s1 s2 : State) :
  pause s.1 = false ->
  inventoryOpen s.1 = false ->
  focusCaught s.2 = false ->
  jpressed ev1 keycode.ESCAPE = true ->
  jpressed ev2 keycode.ESCAPE = true ->
  update ev1 vis1 s = Some s1 ->
  update ev2 vis2 s1 = Some s2 ->
  (pause s1.1 = true /\ page (menu s1.2) = Some "pause") /\
  (pause s2.1 = false /\ page (menu s2.2) = None).
Proof.
  intros Hp Ho Hf E1 E2 H1 H2.
  pose proof (update_focus _ _ _ _ H1) as Hf1.
  apply update_law in H1 as (P1 & _ & M1 & _).
  apply update_law in H2 as (P2 & _ & M2 & _).
  assert (A1 : escape_acts ev1 s = true)
    by (unfold escape_acts; rewrite E1, Hf; reflexivity).
  assert (K1 : pause_kept s = false)
    by (unfold pause_kept; rewrite Hp; reflexivity).
  assert (O1 : open_kept vis1 s = false)
    by (unfold open_kept; rewrite Ho; reflexivity).
  unfold pause_next in P1. rewrite A1, K1, O1 in P1, M1. simpl in P1, M1.
  assert (A2 : escape_acts ev2 s1 = true)
    by (unfold escape_acts; rewrite E2, Hf1, Hf; reflexivity).
  assert (K2 : pause_kept s1 = true)
    by (unfold pause_kept, Menu_current_panel_null; rewrite P1, M1;
        reflexivity).
  unfold pause_next in P2. rewrite A2, K2 in P2, M2. simpl in P2, M2.
  rewrite M1, M2. auto.
Qed.

Lemma update_escape_twice_witness :
  exists s1 s2,
    update (key_event keycode.ESCAPE) true (sample_hud, sample_world) = Some s1 /\
    update (key_event keycode.ESCAPE) true s1 = Some s2 /\
    pause s1.1 = true /\ pause s2.1 = false /\ page (menu s2.2) = None.
Proof.
  eexists. eexists.
  split; [vm_compute; reflexivity |]. split; [vm_compute; reflexivity |].
  match goal with
  | |- pause ?s1.1 = _ /\ pause ?s2.1 = _ /\ _ =>
      destruct (update_escape_twice
                  (key_event keycode.ESCAPE) (key_event keycode.ESCAPE)
                  true true (sample_hud, sample_world) s1 s2)
        as ((Hp1 & _) & (Hp2 & Hm2));
        try (vm_compute; reflexivity)
  end.
  split; [exact Hp1 |]. split; [exact Hp2 | exact Hm2].
Defined.

(** X15. The grabbed stack through [update]: it is emptied exactly when the
    call closes the inventory at some point, and is otherwise left as it
    is. So it is left alone when the inventory is closed at entry, and it is
    empty when the inventory is open at entry and closed at the end, and
    also when ESCAPE closes the inventory and the inventory key reopens it
    in the same call. *)
Theorem update_grabbed_stack (ev : Events) (vis : bool) (s s' : State) :
  update ev vis s = Some s' ->
  grabbedItem s'.2 =
    (if closes_during ev vis s then ItemStack_empty else grabbedItem s.2) /\
  (inventoryOpen s.1 = false -> closes_during ev vis s = false) /\
  (inventoryOpen s.1 = true -> inventoryOpen s'.1 = false ->
   closes_during ev vis s = true) /\
  (inventoryOpen s.1 = true -> vis = true -> pause_kept s = false ->
   escape_acts ev s = true -> jactive_hud_inventory ev = true ->
   closes_during ev vis s = true /\ inventoryOpen s'.1 = true).
Proof.
  intros H. apply update_law in H as (_ & Ho & _ & Hg).
  split; [exact Hg |]. rewrite Ho. clear.
  unfold closes_during, open_next, key_acts, open_escaped, pause_next,
    open_kept.
  destruct (inventoryOpen s.1), vis, (escape_acts ev s), (pause_kept s),
    (jactive_hud_inventory ev); simpl; repeat split; congruence.
Qed.

Lemma update_grabbed_stack_witness :
  exists s',
    update {| jpressed := fun k => k =? keycode.ESCAPE;
              jactive_hud_inventory := true; scroll := 0 |}
           true sample_open = Some s' /\
    inventoryOpen s'.1 = true /\
    grabbedItem s'.2 = ItemStack_empty.
Proof.
  eexists. split; [vm_compute; reflexivity |]. split; [reflexivity |].
  match goal with
  | |- grabbedItem ?s'.2 = _ =>
      destruct (update_grabbed_stack
                  {| jpressed := fun k => k =? keycode.ESCAPE;
                     jactive_hud_inventory := true; scroll := 0 |}
                  true sample_open s') as (Hg & _);
        [vm_compute; reflexivity |]
  end.
  exact Hg.
Defined.

(** X16. The inventory key twice: on a visible HUD that is not paused, with
    ESCAPE not pressed, two calls with the inventory key active open the
    inventory and close it again; the grabbed stack ends empty. *)
Theorem update_inventory_key_twice (ev1 ev2 : Events) (s s1 s2 : State) :
  pause s.1 = false ->
  inventoryOpen s.1 = false ->
  jpressed ev1 keycode.ESCAPE = false ->
  jpressed ev2 keycode.ESCAPE = false ->
  jactive_hud_inventory ev1 = true ->
  jactive_hud_inventory ev2 = true ->
  update ev1 true s = Some s1 ->
  update ev2 true s1 = Some s2 ->
  inventoryOpen s1.1 = true /\ grabbedItem s1.2 = grabbedItem s.2 /\
  inventoryOpen s2.1 = false /\ grabbedItem s2.2 = ItemStack_empty /\
  pause s2.1 = false.
Proof.
  intros Hp Ho E1 E2 K1 K2 H1 H2.
  apply update_law in H1 as (P1 & O1 & _ & G1).
  apply update_law in H2 as (P2 & O2 & _ & G2).
  assert (A1 : escape_acts ev1 s = false)
    by (unfold escape_acts; rewrite E1; reflexivity).
  assert (A2 : escape_acts ev2 s1 = false)
    by (unfold escape_acts; rewrite E2; reflexivity).
  unfold closes_during, open_next, key_acts, open_escaped, pause_next,
    pause_kept, open_kept in *.
  rewrite A1, Hp, Ho, K1 in *. simpl in *.
  rewrite A2, P1, O1, K2 in *. simpl in *. auto.
Qed.

Lemma update_inventory_key_twice_witness :
  exists s1 s2,
    update inventory_event true (sample_hud, sample_world) = Some s1 /\
    update inventory_event true s1 = Some s2 /\
    inventoryOpen s1.1 = true /\ inventoryOpen s2.1 = false /\
    grabbedItem s2.2 = ItemStack_empty.
Proof.
  eexists. eexists.
  split; [vm_compute; reflexivity |]. split; [vm_compute; reflexivity |].
  match goal with
  | |- inventoryOpen ?s1.1 = _ /\ inventoryOpen ?s2.1 = _ /\ _ =>
      destruct (update_inventory_key_twice inventory_event inventory_event
                  (sample_hud, sample_world) s1 s2)
        as (Ho1 & _ & Ho2 & Hg2 & _);
        try (vm_compute; reflexivity)
  end.
  split; [exact Ho1 |]. split; [exact Ho2 | exact Hg2].
Defined.

(** X17. While the HUD is paused with a menu page and ESCAPE does not act,
    the inventory key does nothing: the HUD stays paused and no inventory is
    opened. *)
Theorem update_paused_ignores_inventory_key
    (ev : Events) (vis : bool) (s s' : State) :
  update ev vis s = Some s' ->
  pause_kept s = true ->
  escape_acts ev s = false ->
  pause s'.1 = true /\ inventoryOpen s'.1 = inventoryOpen s.1 && vis.
Proof.
  intros H K A. apply update_law in H as (P & O & _).
  unfold open_next, key_acts, open_escaped, pause_next, open_kept in *.
  rewrite A, K in *. rewrite P, O, andb_false_r. auto.
Qed.

Lemma update_paused_ignores_inventory_key_witness :
  exists s',
    update inventory_event true
      (with_pause true sample_hud,
       with_menu (Menu_setPage "pause" (menu sample_world)) sample_world)
    = Some s' /\
    pause s'.1 = true /\ inventoryOpen s'.1 = false.
Proof.
  eexists. split; [vm_compute; reflexivity |].
  match goal with
  | |- pause ?s'.1 = _ /\ _ =>
      apply (update_paused_ignores_inventory_key inventory_event true
               (with_pause true sample_hud,
                with_menu (Menu_setPage "pause" (menu sample_world))
                  sample_world) s')
  end; vm_compute; reflexivity.
Defined.

(** ** The life of the renderer *)

Lemma createContentAccess_returns (w : World) :
  countItemDefs w < 2 ^ 31 -> is_Some (createContentAccess w).
Proof.
  unfold createContentAccess, countItemDefs.
  set (n := length (itemDefs w)). intros Hn.
  rewrite wrap_int_small, wrap_size_t_small by lia.
  assert (Hseq : seqZ 1 (Z.of_nat n - 1) = seqZ 1 (Z.of_nat (Nat.pred n))).
  { destruct n as [| k]; [reflexivity |]. f_equal. lia. }
  rewrite Hseq.
  destruct (fill_access_seq (Nat.pred n) 1 (Inventory_new 0 (Z.of_nat n)))
    as (inv' & Hfill & _).
  - lia.
  - simpl. rewrite length_replicate. lia.
  - lia.
  - rewrite Hfill. simpl. eauto.
Qed.

(** The state the constructor returns. *)
Lemma HudRenderer_new_result (w : World) (s : State) :
  HudRenderer_new w = Some s ->
  pause s.1 = false /\ inventoryOpen s.1 = false /\
  inventoryView s.1 = None /\ inventoryDocument s.1 = None /\
  layouts s.2 = layouts w /\
  menu s.2 = Menu_reset (menu w) /\
  calls s.2 = calls w ++ [ gui_addBack DarkOverlay; gui_addBack HotbarView;
                           gui_add DebugPanel; gui_add ContentAccessPanel;
                           gui_add GrabbedItemView ].
Proof.
  unfold HudRenderer_new.
  destruct (createContentAccess _); simpl; [| discriminate].
  intros [= <-]. simpl. rewrite <- !app_assoc. auto 10.
Qed.

(** One [update] keeps the agreement of the inventory members and extends
    the trace in step with the flag [inventoryOpen]. *)
Lemma update_trace (ev : Events) (vis : bool) (s s' : State) :
  update ev vis s = Some s' ->
  (members_agree s.1 -> members_agree s'.1) /\
  exists d,
    calls s'.2 = calls s.2 ++ d /\
    total script_delta d = b2z (inventoryOpen s'.1) - b2z (inventoryOpen s.1) /\
    forall k, total (gui_delta k) d =
              if Nat.eqb k 5
              then b2z (inventoryOpen s'.1) - b2z (inventoryOpen s.1)
              else 0.
Proof.
  intros H. apply update_phase in H as (s3 & P & ->).
  destruct (update_tail_world ev vis s3)
    as ((_ & _ & _ & _ & Hc & _) & (_ & Ho & Hv & Hd & _) & _).
  destruct P as [_ _ _ _ _ _ _ T A]. split.
  - intros M. specialize (A M). unfold members_agree in *.
    rewrite Hv, Hd, Ho. exact A.
  - rewrite Hc, Ho. exact T.
Qed.

Lemma run_trace (frames : list Frame) :
  Forall keeps_calls frames ->
  forall s s',
  run frames s = Some s' ->
  (members_agree s.1 -> members_agree s'.1) /\
  exists d,
    calls s'.2 = calls s.2 ++ d /\
    total script_delta d = b2z (inventoryOpen s'.1) - b2z (inventoryOpen s.1) /\
    forall k, total (gui_delta k) d =
              if Nat.eqb k 5
              then b2z (inventoryOpen s'.1) - b2z (inventoryOpen s.1)
              else 0.
Proof.
  induction 1 as [| f frames Hf _ IH]; intros s s' Hrun; simpl in Hrun.
  - injection Hrun as <-. split; [auto |]. exists [].
    rewrite app_nil_r. split; [reflexivity |]. split; [simpl; lia |].
    intros k. simpl. destruct (Nat.eqb k 5); lia.
  - destruct (update (events f) (visible f) (s.1, engine f s.2))
      as [s1 |] eqn:Hup; simpl in Hrun; [| discriminate].
    apply update_trace in Hup as (A1 & d1 & T1 & S1 & W1).
    apply IH in Hrun as (A2 & d2 & T2 & S2 & W2).
    simpl in *. rewrite Hf in T1. split; [auto |].
    exists (d1 ++ d2). rewrite T2, T1, app_assoc. split; [reflexivity |].
    rewrite total_app, S1, S2. split; [lia |].
    intros k. rewrite total_app, W1, W2. destruct (Nat.eqb k 5); lia.
Qed.

(** The agreement of the members does not need the engine to keep the
    trace. *)
Lemma run_members_agree (frames : list Frame) :
  forall s s', run frames s = Some s' ->
               members_agree s.1 -> members_agree s'.1.
Proof.
  induction frames as [| f frames IH]; intros s s' Hrun M; simpl in Hrun.
  - injection Hrun as <-. exact M.
  - destruct (update (events f) (visible f) (s.1, engine f s.2))
      as [s1 |] eqn:Hup; simpl in Hrun; [| discriminate].
    apply update_trace in Hup as (A1 & _).
    apply (IH s1 s' Hrun). apply A1. exact M.
Qed.

(** X18. In every state a renderer reaches from its constructor by [update]
    calls, the three inventory members agree: the flag is set exactly when
    the view pointer is not null and exactly when the document pointer is
    not null, and an open view is bound to the player's inventory. *)
Theorem inventory_members_agree (w : World) (frames : list Frame)
    (s0 s' : State) :
  HudRenderer_new w = Some s0 ->
  run frames s0 = Some s' ->
  (inventoryOpen s'.1 = true <-> is_Some (inventoryView s'.1)) /\
  (inventoryOpen s'.1 = true <-> is_Some (inventoryDocument s'.1)) /\
  (forall view, inventoryView s'.1 = Some view ->
                bound view = Some PlayerInventory).
Proof.
  intros Hnew Hrun.
  apply HudRenderer_new_result in Hnew as (_ & Ho & Hv & Hd & _).
  assert (M : members_agree s'.1).
  { apply (run_members_agree _ _ _ Hrun). unfold members_agree.
    rewrite Hv, Hd. exact Ho. }
  unfold members_agree in M.
  destruct (inventoryView s'.1) as [view |], (inventoryDocument s'.1) as [doc |];
    try contradiction.
  - destruct M as (Hopen & node & _ & ->).
    repeat split; eauto. intros view [= <-]. reflexivity.
  - rewrite M. repeat split; try congruence; intros [x Hx]; discriminate.
Qed.

Lemma inventory_members_agree_witness :
  exists s0 s',
    HudRenderer_new sample_world = Some s0 /\
    run sample_frames s0 = Some s' /\
    (inventoryOpen s'.1 = true <-> is_Some (inventoryView s'.1)).
Proof.
  eexists. eexists.
  split; [vm_compute; reflexivity |]. split; [vm_compute; reflexivity |].
  match goal with
  | |- inventoryOpen ?s'.1 = _ <-> _ =>
      destruct (inventory_members_agree sample_world sample_frames
                  (default (sample_hud, sample_world)
                           (HudRenderer_new sample_world)) s')
        as (H & _); [reflexivity | vm_compute; reflexivity | exact H]
  end.
Defined.

(** X19. No null pointer is dereferenced: with an item count that fits an
    [int] and the inventory layout loaded, the constructor returns, and so
    does every sequence of [update] calls, as long as the engine keeps that
    layout loaded. *)
Theorem renderer_never_fails (w : World) (frames : list Frame) :
  countItemDefs w < 2 ^ 31 ->
  layout_present w ->
  Forall keeps_layout frames ->
  exists s0 s', HudRenderer_new w = Some s0 /\ run frames s0 = Some s'.
Proof.
  intros Hn L Hf.
  destruct (createContentAccess_returns
              (with_grabbedItem ItemStack_empty w) Hn) as [ca Hca].
  assert (Hnew : is_Some (HudRenderer_new w)).
  { unfold HudRenderer_new. cbv zeta. rewrite Hca. simpl. eauto. }
  destruct Hnew as [s0 Hnew]. exists s0.
  pose proof (HudRenderer_new_result _ _ Hnew) as (_ & Ho & _ & _ & Hl & _).
  destruct (run_returns frames Hf s0) as [s' Hs'].
  - intros Hopen. congruence.
  - destruct L as (doc & node & Hdoc & Hnode). exists doc, node.
    unfold getLayout in *. rewrite Hl. auto.
  - exists s'. auto.
Qed.

Lemma renderer_never_fails_witness :
  exists s0 s', HudRenderer_new sample_world = Some s0 /\
                run sample_frames s0 = Some s'.
Proof.
  apply renderer_never_fails.
  - vm_compute. reflexivity.
  - exists inventory_layout, (getRoot inventory_layout).
    split; vm_compute; reflexivity.
  - repeat constructor; intros w L; exact L.
Defined.

Lemma HudRenderer_delete_calls (s : State) :
  calls (HudRenderer_delete s) =
  calls s.2 ++
    gui_remove GrabbedItemView ::
    match inventoryView s.1 with
    | Some view => [gui_remove (InventoryViewNode view)]
    | None => []
    end ++
    [ gui_remove HotbarView; gui_remove DarkOverlay;
      gui_remove ContentAccessPanel; gui_remove DebugPanel ].
Proof.
  destruct s as [h w]. unfold HudRenderer_delete. simpl.
  destruct (inventoryView h); simpl; rewrite <- !app_assoc; reflexivity.
Qed.

(** X20. Over the life of a renderer, from the constructor through any
    [update] calls to the destructor, every widget it has put into the GUI
    it has taken out again: for each of the six kinds of widget, additions
    and removals in the call trace cancel (the engine leaving the trace
    alone in between). *)
Theorem renderer_leaves_no_widget (w : World) (frames : list Frame)
    (s0 s' : State) (k : nat) :
  HudRenderer_new w = Some s0 ->
  Forall keeps_calls frames ->
  run frames s0 = Some s' ->
  total (gui_delta k) (calls (HudRenderer_delete s')) =
  total (gui_delta k) (calls w).
Proof.
  intros Hnew Hf Hrun.
  apply HudRenderer_new_result in Hnew as (_ & Ho & Hv & Hd & _ & _ & Hc).
  destruct (run_trace frames Hf _ _ Hrun) as (A & d & T & _ & W).
  assert (M : members_agree s'.1).
  { apply A. unfold members_agree. rewrite Hv, Hd. exact Ho. }
  rewrite HudRenderer_delete_calls, T, Hc, !total_app, W, Ho.
  unfold members_agree in M.
  destruct (inventoryView s'.1) as [view |], (inventoryDocument s'.1) as [doc |];
    try contradiction.
  - destruct M as (-> & _).
    destruct k as [| [| [| [| [| [| k]]]]]]; simpl; lia.
  - rewrite M.
    destruct k as [| [| [| [| [| [| k]]]]]]; simpl; lia.
Qed.

Lemma renderer_leaves_no_widget_witness :
  exists s0 s',
    HudRenderer_new sample_world = Some s0 /\
    run [ {| engine := fun w => w; events := inventory_event;
             visible := true |} ] s0 = Some s' /\
    inventoryOpen s'.1 = true /\
    total (gui_delta 5) (calls (HudRenderer_delete s')) = 0.
Proof.
  eexists. eexists.
  split; [vm_compute; reflexivity |]. split; [vm_compute; reflexivity |].
  split; [reflexivity |].
  match goal with
  | |- total _ (calls (HudRenderer_delete ?s')) = _ =>
      apply (renderer_leaves_no_widget sample_world
               [ {| engine := fun w => w; events := inventory_event;
                    visible := true |} ]
               (default (sample_hud, sample_world)
                        (HudRenderer_new sample_world)) s' 5%nat)
  end.
  - reflexivity.
  - repeat constructor.
  - vm_compute. reflexivity.
Defined.

(** X21. The scripts are told of every opening and every closing that
    [update] makes, and of nothing else: the [on_ui_open] calls in the trace
    outnumber the [on_ui_close] calls by one while the inventory is open,
    and by none while it is closed. The destructor tells the scripts
    nothing, so a renderer destroyed with the inventory open leaves one
    [on_ui_open] unanswered. *)
Theorem script_calls_follow_inventory (w : World) (frames : list Frame)
    (s0 s' : State) :
  HudRenderer_new w = Some s0 ->
  Forall keeps_calls frames ->
  run frames s0 = Some s' ->
  total script_delta (calls s'.2) - total script_delta (calls w)
    = b2z (inventoryOpen s'.1) /\
  total script_delta (calls (HudRenderer_delete s'))
    = total script_delta (calls s'.2).
Proof.
  intros Hnew Hf Hrun.
  apply HudRenderer_new_result in Hnew as (_ & Ho & _ & _ & _ & _ & Hc).
  destruct (run_trace frames Hf _ _ Hrun) as (_ & d & T & S & _).
  split.
  - rewrite T, Hc, !total_app, S, Ho. simpl. lia.
  - rewrite HudRenderer_delete_calls, total_app.
    destruct (inventoryView s'.1); simpl; lia.
Qed.

Lemma script_calls_follow_inventory_witness :
  exists s0 s',
    HudRenderer_new sample_world = Some s0 /\
    run [ {| engine := fun w => w; events := inventory_event;
             visible := true |} ] s0 = Some s' /\
    total script_delta (calls (HudRenderer_delete s')) = 1.
Proof.
  eexists. eexists.
  split; [vm_compute; reflexivity |]. split; [vm_compute; reflexivity |].
  match goal with
  | |- total _ (calls (HudRenderer_delete ?s')) = _ =>
      destruct (script_calls_follow_inventory sample_world
                  [ {| engine := fun w => w; events := inventory_event;
                       visible := true |} ]
                  (default (sample_hud, sample_world)
                           (HudRenderer_new sample_world)) s')
        as (H1 & H2);
        [reflexivity | repeat constructor | vm_compute; reflexivity |]
  end.
  rewrite H2. vm_compute in H1. vm_compute. exact H1.
Defined.

(** ** draw *)

(** X22. [draw] fails exactly when the shader ["ui"] is not loaded or the
    inventory is flagged open with a null view pointer. The second never
    happens to a renderer that has come from its constructor by [update]
    calls: there [draw] returns for every viewport as soon as the shader is
    loaded, whatever else the engine has done to the shared objects. *)
Theorem draw_returns (w : World) (frames : list Frame) (s0 s' : State)
    (vp : Viewport) (w' : World) :
  HudRenderer_new w = Some s0 ->
  run frames s0 = Some s' ->
  (forall s, draw vp s = None <->
             getShader "ui" s.2 = None \/
             (inventoryOpen s.1 = true /\ inventoryView s.1 = None)) /\
  (is_Some (getShader "ui" w') <-> is_Some (draw vp (s'.1, w'))).
Proof.
  intros Hnew Hrun.
  assert (Hiff : forall s, draw vp s = None <->
                           getShader "ui" s.2 = None \/
                           (inventoryOpen s.1 = true /\ inventoryView s.1 = None)).
  { intros [h x]. unfold draw. cbn [fst snd].
    destruct (getShader "ui" x) as [sh |]; simpl; [| split; auto].
    destruct (inventoryOpen h); [destruct (inventoryView h) |]; simpl;
      split; try discriminate; auto;
      intros [H | [H1 H2]]; discriminate. }
  split; [exact Hiff |].
  apply HudRenderer_new_result in Hnew as (_ & Ho & Hv & Hd & _).
  assert (M : members_agree s'.1).
  { apply (run_members_agree _ _ _ Hrun). unfold members_agree.
    rewrite Hv, Hd. exact Ho. }
  split.
  - intros [sh Hsh].
    destruct (draw vp (s'.1, w')) as [cs |] eqn:E; [eauto |].
    apply Hiff in E as [E | [Hopen Hview]]; simpl in *; [congruence |].
    unfold members_agree in M. rewrite Hview in M.
    destruct (inventoryDocument s'.1); [contradiction | congruence].
  - intros [cs Hcs].
    destruct (getShader "ui" w') as [sh |] eqn:E; [eauto |].
    assert (draw vp (s'.1, w') = None) by (apply Hiff; left; exact E).
    congruence.
Qed.

Lemma draw_returns_witness :
  exists s0 s',
    HudRenderer_new sample_world = Some s0 /\
    run sample_frames s0 = Some s' /\
    is_Some (draw sample_viewport (s'.1, sample_world)).
Proof.
  eexists. eexists.
  split; [vm_compute; reflexivity |]. split; [vm_compute; reflexivity |].
  match goal with
  | |- is_Some (draw _ (?s'.1, _)) =>
      destruct (draw_returns sample_world sample_frames
                  (default (sample_hud, sample_world)
                           (HudRenderer_new sample_world)) s'
                  sample_viewport sample_world) as (_ & H);
        [reflexivity | vm_compute; reflexivity |]
  end.
  apply H. exists "ui". vm_compute. reflexivity.
Defined.

Lemma uint_to_float_small (z : Z) : z < 2 ^ 24 -> uint_to_float z = z.
Proof.
  intros H. unfold uint_to_float.
  destruct (Z.ltb_spec z (2 ^ 24)); [reflexivity | lia].
Qed.

(** An [unsigned] subtraction that wraps gives a value next to 2^32, which as
    a [float] is 2^32. *)
Lemma uint_to_float_wrapped (c : Z) :
  0 <= c < 6 -> uint_to_float (uint_sub c 6) = 2 ^ 32.
Proof.
  intros H.
  assert (Hc : c = 0 \/ c = 1 \/ c = 2 \/ c = 3 \/ c = 4 \/ c = 5) by lia.
  repeat destruct Hc as [-> | Hc]; try subst c; vm_compute; reflexivity.
Qed.

(** X23. The crosshair on a viewport of [unsigned] width and height: when
    both are at least 12 and at most 2^24, where the conversion to [float]
    is exact, every line has its two ends opposite each other about the
    centre [(width/2, height/2)] and within 6 of it; when one of them is
    below 12, a subtraction wraps around and some end lies far outside. *)
Theorem crosshair_centred (width height : Z) :
  0 <= width < 2 ^ 32 ->
  0 <= height < 2 ^ 32 ->
  (12 <= width <= 2 ^ 24 /\ 12 <= height <= 2 ^ 24 ->
   Forall (centred_on (width / 2) (height / 2)) (crosshair width height) /\
   Forall (within_centre width height) (crosshair width height)) /\
  (width < 12 \/ height < 12 ->
   ~ Forall (within_centre width height) (crosshair width height)).
Proof.
  intros Hw Hh.
  assert (Hcx : 0 <= width / 2 < 2 ^ 31).
  { split; [apply Z.div_pos; lia | apply Z.div_lt_upper_bound; lia]. }
  assert (Hcy : 0 <= height / 2 < 2 ^ 31).
  { split; [apply Z.div_pos; lia | apply Z.div_lt_upper_bound; lia]. }
  assert (Hadd : forall c d, 0 <= c < 2 ^ 31 -> 0 <= d <= 6 ->
                             uint_add c d = c + d).
  { intros c d Hc Hd. unfold uint_add, wrap_uint. apply Z.mod_small. lia. }
  assert (Hsub : forall c d, 6 <= c < 2 ^ 31 -> 0 <= d <= 6 ->
                             uint_sub c d = c - d).
  { intros c d Hc Hd. unfold uint_sub, wrap_uint. apply Z.mod_small. lia. }
  unfold crosshair, uint_div. cbv zeta. split.
  - intros [Hw12 Hh12].
    assert (6 <= width / 2) by (apply Z.div_le_lower_bound; lia).
    assert (6 <= height / 2) by (apply Z.div_le_lower_bound; lia).
    assert (width / 2 <= 2 ^ 23) by (apply Z.div_le_upper_bound; lia).
    assert (height / 2 <= 2 ^ 23) by (apply Z.div_le_upper_bound; lia).
    rewrite !Hadd, !Hsub by lia.
    rewrite !uint_to_float_small by lia.
    split; repeat constructor; unfold near_centre; simpl; lia.
  - intros Hsmall HF.
    inversion HF as [| c1 l1 _ HF1]; subst. clear HF.
    inversion HF1 as [| c2 l2 H2 HF2]; subst. clear HF1.
    inversion HF2 as [| c3 l3 H3 _]; subst. clear HF2.
    unfold within_centre, near_centre in H2, H3.
    destruct Hsmall as [Hsmall | Hsmall].
    + assert (width / 2 < 6) by (apply Z.div_lt_upper_bound; lia).
      rewrite (uint_to_float_wrapped (width / 2)) in H3 by lia. lia.
    + assert (height / 2 < 6) by (apply Z.div_lt_upper_bound; lia).
      rewrite (uint_to_float_wrapped (height / 2)) in H2 by lia. lia.
Qed.

Lemma crosshair_centred_witness :
  Forall (within_centre 1280 720) (crosshair 1280 720) /\
  ~ Forall (within_centre 1280 10) (crosshair 1280 10).
Proof.
  destruct (crosshair_centred 1280 720) as [Hbig _]; [lia | lia |].
  destruct (crosshair_centred 1280 10) as [_ Hsmall]; [lia | lia |].
  split; [apply Hbig; lia | apply Hsmall; lia].
Defined.

(** Above 2^24 the conversion rounds: at width 33554434 the right end of the
    horizontal line is 7 beyond the centre and its left end 6 before it. *)
Example crosshair_rounds_wide :
  nth 2 (crosshair 33554434 720) batch_render =
  batch_line 16777224 360 16777211 360 2 2 2 10.
Proof. vm_compute. reflexivity. Qed.

(** ** The frame-rate statistics *)

Lemma drawDebug_all_snoc (l : list Z) (a : Z) (st : FpsStats) :
  drawDebug_all (l ++ [a]) st = drawDebug a (drawDebug_all l st).
Proof. unfold drawDebug_all. rewrite fold_left_app. reflexivity. Qed.

(** X24. Between two ticks of the half-second listener, [fpsMin] and
    [fpsMax] are the least and the greatest of the samples drawn since the
    tick together with the last sample before it, [fps] is the latest
    sample, and the label keeps the text the tick gave it: the bounds of the
    window before, greatest first. *)
Theorem fps_window (st : FpsStats) (samples : list Z) :
  let st' := drawDebug_all samples (fps_interval st) in
  (forall y, In y (fps st :: samples) -> fpsMin st' <= y <= fpsMax st') /\
  In (fpsMin st') (fps st :: samples) /\
  In (fpsMax st') (fps st :: samples) /\
  fps st' = List.last samples (fps st) /\
  fpsString st' = pretty (fpsMax st) +:+ " / " +:+ pretty (fpsMin st).
Proof.
  cbv zeta. induction samples as [| a l IH] using rev_ind.
  - simpl. repeat split; auto; destruct H as [<- | []]; lia.
  - rewrite drawDebug_all_snoc, List.last_last.
    destruct IH as (Hb & Hmin & Hmax & Hfps & Hstr).
    set (st1 := drawDebug_all l (fps_interval st)) in *. simpl.
    split; [| split; [| split; [| split; [reflexivity | exact Hstr]]]].
    + intros y [<- | Hy].
      * specialize (Hb (fps st) (or_introl eq_refl)). lia.
      * apply in_app_iff in Hy as [Hy | [<- | []]].
        -- specialize (Hb y (or_intror Hy)). lia.
        -- lia.
    + destruct (Z.min_spec a (fpsMin st1)) as [[_ ->] | [_ ->]].
      * right. apply in_app_iff. right. left. reflexivity.
      * destruct Hmin as [E | Hin]; [left; exact E |].
        right. apply in_app_iff. left. exact Hin.
    + destruct (Z.max_spec a (fpsMax st1)) as [[_ ->] | [_ ->]].
      * destruct Hmax as [E | Hin]; [left; exact E |].
        right. apply in_app_iff. left. exact Hin.
      * right. apply in_app_iff. right. left. reflexivity.
Qed.

(** X25. After any sample or tick the latest sample lies between the two
    bounds, whatever the members held before. *)
Theorem fps_between_bounds (st : FpsStats) (events : list FpsEvent) :
  events <> [] ->
  let st' := fold_left fps_step events st in
  fpsMin st' <= fps st' <= fpsMax st'.
Proof.
  intros Hne. cbv zeta.
  destruct events as [| e l] using rev_ind; [congruence |].
  rewrite fold_left_app. simpl. destruct e; simpl; lia.
Qed.

Lemma fps_between_bounds_witness :
  let st' := fold_left fps_step [Sample 58; Tick; Sample 61; Sample 47]
               {| fps := 0; fpsMin := 100; fpsMax := -100; fpsString := "" |} in
  fpsMin st' <= fps st' <= fpsMax st'.
Proof. apply fps_between_bounds. discriminate. Defined.

Example fps_label_after_window :
  fps_label
    (fps_interval
       (drawDebug_all [61; 47; 59]
          (fps_interval {| fps := 58; fpsMin := 30; fpsMax := 90;
                           fpsString := "" |})))
  = "fps: 61 / 47".
Proof. vm_compute. reflexivity. Qed.

(** ** The wheel and the digit keys *)

(** X26. Wheel movements add up: on a HUD that is neither paused nor showing
    the inventory, with the slot in 0..9, the wheel block run with an amount
    and then with another leaves the slot it leaves when run once with their
    sum; so ten notches either way, or any multiple of ten, bring the slot
    back. *)
Theorem update_scroll_adds_up (ev1 ev2 ev12 : Events) (h : HudRenderer)
    (p : Player) :
  pause h = false ->
  inventoryOpen h = false ->
  0 <= chosenSlot p <= 9 ->
  - 2 ^ 29 <= scroll ev1 < 2 ^ 29 ->
  - 2 ^ 29 <= scroll ev2 < 2 ^ 29 ->
  scroll ev12 = scroll ev1 + scroll ev2 ->
  chosenSlot (update_scroll ev2 h (update_scroll ev1 h p)) =
  chosenSlot (update_scroll ev12 h p) /\
  (scroll ev1 mod 10 = 0 ->
   chosenSlot (update_scroll ev1 h p) = chosenSlot p).
Proof.
  intros Hp Ho Hslot H1 H2 H12.
  assert (R1 : 0 <= chosenSlot (update_scroll ev1 h p) <= 9).
  { rewrite update_scroll_slot, Hp, Ho by exact Hslot. simpl.
    pose proof (Z.mod_pos_bound (int_sub (chosenSlot p) (scroll ev1)) 10
                  ltac:(lia)). lia. }
  rewrite (update_scroll_slot ev2) by exact R1.
  rewrite !update_scroll_slot by exact Hslot.
  rewrite Hp, Ho. simpl. unfold int_sub. rewrite H12.
  pose proof (Z.mod_pos_bound (chosenSlot p - scroll ev1) 10 ltac:(lia)).
  rewrite (wrap_int_small (chosenSlot p - scroll ev1)) by lia.
  rewrite !wrap_int_small by lia. split.
  - rewrite Zminus_mod_idemp_l. f_equal. lia.
  - intros Hmul.
    rewrite Zminus_mod, Hmul, Z.sub_0_r, Z.mod_mod, Z.mod_small by lia.
    reflexivity.
Qed.

Lemma update_scroll_adds_up_witness :
  chosenSlot (update_scroll (scroll_event 4) sample_hud
                (update_scroll (scroll_event 9) sample_hud
                   (player sample_world))) = 0.
Proof.
  destruct (update_scroll_adds_up (scroll_event 9) (scroll_event 4)
              (scroll_event 13) sample_hud (player sample_world))
    as [H _];
    [reflexivity | reflexivity | simpl; lia | simpl; lia | simpl; lia
    | reflexivity |].
  rewrite H. reflexivity.
Defined.

Lemma fold_key_step_pressed (ev : Events) (l : list Z) :
  Exists (fun j => jpressed ev j = true) l ->
  forall p p',
    chosenSlot (fold_left (key_step ev) l p) =
    chosenSlot (fold_left (key_step ev) l p').
Proof.
  induction l as [| a l IH] using rev_ind; intros Hex p p'.
  - inversion Hex.
  - rewrite !fold_left_app. simpl. unfold key_step at 1 3.
    destruct (jpressed ev a) eqn:Ha; [reflexivity |].
    apply IH. apply Exists_app in Hex as [Hex | Hex]; [exact Hex |].
    inversion Hex as [? ? Hp | ? ? Hp]; subst; [congruence | inversion Hp].
Qed.

(** X27. When a digit key is down, the slot the digit keys choose owes
    nothing to the slot chosen before, and is one of 0..9 even if the old
    slot was not. *)
Theorem update_number_keys_forget (ev : Events) (p p' : Player) (N : Z) :
  0 <= N <= 9 ->
  jpressed ev (keycode.NUM_0 + N) = true ->
  chosenSlot (update_number_keys ev p) = chosenSlot (update_number_keys ev p')
  /\ 0 <= chosenSlot (update_number_keys ev p) <= 9.
Proof.
  intros HN Hkey.
  assert (Hsame : forall q q', chosenSlot (update_number_keys ev q) =
                               chosenSlot (update_number_keys ev q')).
  { intros q q'. rewrite !update_number_keys_unfold. cbv zeta.
    destruct (jpressed ev keycode.NUM_0) eqn:H0; [reflexivity |].
    apply fold_key_step_pressed. apply Exists_exists.
    exists (keycode.NUM_0 + N). split; [| exact Hkey].
    apply elem_of_seqZ.
    assert (N <> 0) by (intros ->; rewrite Z.add_0_r in Hkey; congruence).
    unfold keycode.NUM_0, keycode.NUM_1. lia. }
  split; [apply Hsame |].
  rewrite (Hsame p (setChosenSlot 0 p)).
  apply update_number_keys_range. simpl. lia.
Qed.

Lemma update_number_keys_forget_witness :
  chosenSlot (update_number_keys (key_event 52)
                (setChosenSlot 1234 (player sample_world))) = 3.
Proof.
  destruct (update_number_keys_forget (key_event 52)
              (setChosenSlot 1234 (player sample_world))
              (player sample_world) 4) as [H _];
    [lia | reflexivity |].
  rewrite H. reflexivity.
Defined.

(** ** [update] and [draw] together *)

(** X28. Drawing the state an [update] has left: the crosshair is composed
    exactly when the HUD is not paused, shows no inventory, and the player's
    debug flag is off; the cursor lock that [draw] tests stands for the
    first two. *)
Theorem crosshair_after_update (ev : Events) (vis : bool) (s s' : State)
    (vp : Viewport) (cs : list DrawCall) :
  update ev vis s = Some s' ->
  draw vp s' = Some cs ->
  List.filter is_line cs =
    if negb (pause s'.1) && negb (inventoryOpen s'.1)
       && negb (debug (player s'.2))
    then List.filter is_line (crosshair (getWidth vp) (getHeight vp))
    else [].
Proof.
  intros Hup Hdraw. rewrite (draw_Some _ _ _ Hdraw).
  apply update_Some in Hup as (s1 & s2 & s3 & _ & _ & _ & ->).
  destruct (update_tail_flags ev vis s3) as (Hp & Ho & _ & Hc & _).
  unfold crosshair_shown. rewrite Hc, Hp, Ho.
  destruct (pause s3.1), (inventoryOpen s3.1); reflexivity.
Qed.

Lemma crosshair_after_update_witness :
  exists s' cs,
    update inventory_event true (sample_hud, sample_world) = Some s' /\
    draw sample_viewport s' = Some cs /\
    pause s'.1 = false /\ List.filter is_line cs = [].
Proof.
  eexists. eexists.
  split; [vm_compute; reflexivity |]. split; [vm_compute; reflexivity |].
  split; [reflexivity |].
  match goal with
  | |- List.filter is_line ?cs = [] =>
      rewrite (crosshair_after_update inventory_event true
                 (sample_hud, sample_world) _ sample_viewport cs
                 ltac:(vm_compute; reflexivity) ltac:(vm_compute; reflexivity))
  end.
  reflexivity.
Defined.

(** X29. The menu's visibility runs one call behind the pause flag: [update]
    sets it from the flag as it is at entry, before the keys are looked at,
    so after a call that pauses or resumes, the menu is still hidden or
    still shown, while the dark overlay already follows the new flag. *)
Theorem update_menu_visibility_lags (ev : Events) (vis : bool) (s s' : State) :
  update ev vis s = Some s' ->
  menu_visible (menu s'.2) = pause s.1 /\
  darkOverlay_visible s'.1 = pause s'.1.
Proof.
  intros H. pose proof (update_law _ _ _ _ H) as (_ & _ & M & _).
  split.
  - rewrite M. cbv zeta.
    destruct (escape_acts ev s), (pause_kept s), (open_kept vis s); reflexivity.
  - apply update_Some in H as (s1 & s2 & s3 & _ & _ & _ & ->).
    destruct (update_tail_world ev vis s3) as (_ & (Hp & _) & Hd & _).
    rewrite Hd, Hp. reflexivity.
Qed.

Lemma update_menu_visibility_lags_witness :
  exists s',
    update (key_event keycode.ESCAPE) true (sample_hud, sample_world) = Some s' /\
    pause s'.1 = true /\ darkOverlay_visible s'.1 = true /\
    menu_visible (menu s'.2) = false.
Proof.
  eexists. split; [vm_compute; reflexivity |]. split; [reflexivity |].
  match goal with
  | |- darkOverlay_visible ?s'.1 = _ /\ _ =>
      destruct (update_menu_visibility_lags (key_event keycode.ESCAPE) true
                  (sample_hud, sample_world) s') as (Hm & Hd);
        [vm_compute; reflexivity |]
  end.
  split; [exact Hd | exact Hm].
Defined.

End HudExtra.
